(** * MWD statistics of the ATRP kinetic Monte-Carlo post-processing scripts

    A shallow embedding of the two comparison drivers
    [output/output_data/PDI/comparison_MWD_con.py] and
    [output/output_data/PDI/comparison_MWD_con_50.py]: the chain-length
    loader, the minimum-length filter, the moment calculator (Mn, Mw, PDI)
    and the two weight-fraction density estimators.

    Modelling conventions.
    - A text file is the string Python obtains from [file.read()].  Characters
      are code points below 256 (the type [ascii]); [str.split],
      [str.strip], [str.isdigit] and [int] are modelled on that range.
    - A NumPy integer array is a [list Z]; its element type is int64, so the
      integer reductions and the integer power wrap around modulo 2^64
      ([wrap64]).  An array holds int64 values only when every element lies
      in the int64 range ([int64_range]).
    - A float64 value is a rational number ([Q]): the operations are the
      exact ones, rounding is not modelled.  Equalities between floats are
      therefore stated with [==].  The module [Binary64] runs the moment
      calculator on the kernel's binary64 numbers, to show on short arrays
      what rounding changes.
    - A Python call that may raise returns in the monad [py]; a function that
      catches its exceptions returns what the Python function returns.
    - The files a driver looks at are a function from paths to file states
      ([file_system]); what a driver prints about the data, draws and saves
      is part of the value it returns. *)

From Stdlib Require Import Ascii String.
From Stdlib Require Import ZArith QArith Qabs Qfield List Bool Lia Lqa.
From Stdlib Require Import Uint63 Floats.
Import ListNotations.

Local Open Scope Z_scope.

(** ** Python exceptions *)

Inductive exn : Type :=
  | FileNotFoundError
  | OSError
  | ValueError
  | LinAlgError.

Inductive py (A : Type) : Type :=
  | Ret (a : A)
  | Raise (e : exn).

Arguments Ret {A} a.
Arguments Raise {A} e.

Definition bind {A B : Type} (m : py A) (k : A -> py B) : py B :=
  match m with
  | Ret a => k a
  | Raise e => Raise e
  end.

Notation "x <- m ;; k" := (bind m (fun x => k))
  (at level 61, m at next level, right associativity).

(** ** Strings *)

Module PyStr.

Local Open Scope N_scope.

Definition code (c : ascii) : N := N_of_ascii c.

(** [str.isspace] on one character (code points below 256). *)
Definition isspace (c : ascii) : bool :=
  let n := code c in
  ((9 <=? n) && (n <=? 13)) || ((28 <=? n) && (n <=? 32))
  || (n =? 133) || (n =? 160).

(** A decimal digit (Unicode category Nd): the only digits [int] accepts. *)
Definition isdecimal_char (c : ascii) : bool :=
  let n := code c in (48 <=? n) && (n <=? 57).

(** [str.isdigit] on one character: the decimal digits and the superscript
    digits U+00B2, U+00B3 and U+00B9. *)
Definition isdigit_char (c : ascii) : bool :=
  isdecimal_char c
  || (let n := code c in (n =? 178) || (n =? 179) || (n =? 185)).

Definition is_empty (s : string) : bool :=
  match s with
  | EmptyString => true
  | String _ _ => false
  end.

Fixpoint all_chars (p : ascii -> bool) (s : string) : bool :=
  match s with
  | EmptyString => true
  | String c s' => p c && all_chars p s'
  end.

(** [s.isdigit()]: at least one character and every character a digit. *)
Definition isdigit (s : string) : bool :=
  negb (is_empty s) && all_chars isdigit_char s.

(** A non-empty string of decimal digits. *)
Definition isdecimal (s : string) : bool :=
  negb (is_empty s) && all_chars isdecimal_char s.

Fixpoint lstrip (s : string) : string :=
  match s with
  | EmptyString => EmptyString
  | String c s' => if isspace c then lstrip s' else s
  end.

Fixpoint rstrip (s : string) : string :=
  match s with
  | EmptyString => EmptyString
  | String c s' =>
      let r := rstrip s' in
      if isspace c && is_empty r then EmptyString else String c r
  end.

(** [s.strip()] *)
Definition strip (s : string) : string := rstrip (lstrip s).

Definition cons_word (w : string) (ws : list string) : list string :=
  if is_empty w then ws else w :: ws.

(** The word that starts the string, and the words after it. *)
Fixpoint split_go (s : string) : string * list string :=
  match s with
  | EmptyString => (EmptyString, [])
  | String c s' =>
      let (w, ws) := split_go s' in
      if isspace c then (EmptyString, cons_word w ws)
      else (String c w, ws)
  end.

(** [s.split()]: the maximal runs of characters that are not whitespace. *)
Definition split (s : string) : list string :=
  let (w, ws) := split_go s in cons_word w ws.

Local Open Scope Z_scope.

Definition digit_value (c : ascii) : Z := Z.of_N (code c) - 48.

(** The digits of an integer literal, single underscores allowed between
    digits; [prev] tells whether the previous character was a digit. *)
Fixpoint int_digits (s : string) (acc : Z) (prev : bool) : option Z :=
  match s with
  | EmptyString => if prev then Some acc else None
  | String c s' =>
      if isdecimal_char c then int_digits s' (10 * acc + digit_value c) true
      else if Ascii.eqb c "_"%char then
        (if prev then int_digits s' acc false else None)
      else None
  end.

Definition int_literal (s : string) : option Z :=
  match s with
  | String c s' =>
      if Ascii.eqb c "-"%char then option_map Z.opp (int_digits s' 0 false)
      else if Ascii.eqb c "+"%char then int_digits s' 0 false
      else int_digits s 0 false
  | EmptyString => None
  end.

(** [int(s)]: surrounding whitespace, an optional sign, decimal digits.
    (The interpreter's limit on the number of digits is not modelled.) *)
Definition int (s : string) : py Z :=
  match int_literal (strip s) with
  | Some z => Ret z
  | None => Raise ValueError
  end.

End PyStr.

(** ** Files *)

Inductive file_state : Type :=
  | Missing                       (* [os.path.exists] is false *)
  | Unreadable                    (* exists, [open] or [read] raises OSError *)
  | Readable (content : string).

Definition exists_ (f : file_state) : bool :=
  match f with
  | Missing => false
  | _ => true
  end.

(** [with open(filepath, 'r') as f: f.read()] *)
Definition open_read (f : file_state) : py string :=
  match f with
  | Missing => Raise FileNotFoundError
  | Unreadable => Raise OSError
  | Readable s => Ret s
  end.

(** ** The loader of comparison_MWD_con.py (lines 25-29) *)

Module Con.

(** [[int(x) for x in data]] *)
Fixpoint int_all (data : list string) : py (list Z) :=
  match data with
  | [] => Ret []
  | x :: rest =>
      n <- PyStr.int x ;;
      l <- int_all rest ;;
      Ret (n :: l)
  end.

Definition read_chain_lengths (f : file_state) : py (list Z) :=
  s <- open_read f ;;
  int_all (PyStr.split s).

End Con.

(** ** The loader of comparison_MWD_con_50.py (lines 7-28) *)

Inductive message : Type :=
  | FileNotFoundMsg        (* "Error: File not found at ..." *)
  | NoNumericDataMsg       (* "Warning: No numeric data found in ..." *)
  | ConversionErrorMsg     (* "Error converting data to integers in ..." *)
  | UnexpectedErrorMsg.    (* "An unexpected error occurred while ..." *)

Module Con50.

(** [[int(length) for length in data if length.strip().isdigit()]] *)
Fixpoint int_digit_tokens (data : list string) : py (list Z) :=
  match data with
  | [] => Ret []
  | length :: rest =>
      if PyStr.isdigit (PyStr.strip length) then
        n <- PyStr.int length ;;
        l <- int_digit_tokens rest ;;
        Ret (n :: l)
      else int_digit_tokens rest
  end.

(** The body of the [try] block. *)
Definition read_body (f : file_state) : py (list message * list Z) :=
  s <- open_read f ;;
  lengths <- int_digit_tokens (PyStr.split s) ;;
  match lengths with
  | [] => Ret ([NoNumericDataMsg], [])
  | _ => Ret ([], lengths)
  end.

(** What is printed, and the value returned: [None], or an array. *)
Definition read_chain_lengths (f : file_state)
  : list message * option (list Z) :=
  if negb (exists_ f) then ([FileNotFoundMsg], None)
  else
    match read_body f with
    | Ret (msgs, a) => (msgs, Some a)
    | Raise ValueError => ([ConversionErrorMsg], None)
    | Raise _ => ([UnexpectedErrorMsg], None)
    end.

End Con50.

(** ** NumPy operations *)

Module Np.

Definition wrap64 (z : Z) : Z := (z + 2 ^ 63) mod 2 ^ 64 - 2 ^ 63.

Definition int64_range (z : Z) : Prop := - 2 ^ 63 <= z < 2 ^ 63.

(** [np.sum] of an int64 array: the accumulator is an int64. *)
Definition sum_i64 (a : list Z) : Z :=
  fold_left (fun acc v => wrap64 (acc + v)) a 0.

(** [a ** 2] on an int64 array. *)
Definition square_i64 (a : list Z) : list Z :=
  map (fun v => wrap64 (v * v)) a.

(** [a.astype(np.float64)] *)
Definition astype_float64 (a : list Z) : list Q := map inject_Z a.

(** [a ** 2] on a float64 array. *)
Definition square_f (a : list Q) : list Q := map (fun v => v * v)%Q a.

(** [np.sum] of a float64 array. *)
Definition sum_f (a : list Q) : Q := fold_left Qplus a 0%Q.

(** [np.mean] of an integer array: accumulated in float64. *)
Definition mean (a : list Z) : Q :=
  (sum_f (astype_float64 a) / inject_Z (Z.of_nat (length a)))%Q.

(** [np.min] and [np.max] of a non-empty array. *)
Definition amin (a : list Z) : Z :=
  match a with
  | [] => 0
  | v :: rest => fold_left Z.min rest v
  end.

Definition amax (a : list Z) : Z :=
  match a with
  | [] => 0
  | v :: rest => fold_left Z.max rest v
  end.

(** [a / b] on float64 scalars; [None] is a result that is not finite
    (a division by zero gives inf or nan, with a warning, not an
    exception). *)
Definition true_divide (a b : Q) : option Q :=
  if Qeq_bool b 0 then None else Some (a / b)%Q.

(** [a[mask]]: the elements of [a] at the places where [mask] is true. *)
Fixpoint bool_index {A : Type} (a : list A) (mask : list bool) : list A :=
  match a, mask with
  | v :: a', b :: mask' =>
      if b then v :: bool_index a' mask' else bool_index a' mask'
  | _, _ => []
  end.

(** [a >= k] *)
Definition ge_mask (a : list Z) (k : Z) : list bool :=
  map (fun v => k <=? v) a.

(** [np.linspace(start, stop, num)] *)
Definition linspace (start stop : Q) (num : nat) : list Q :=
  let step := ((stop - start) / inject_Z (Z.of_nat (num - 1)))%Q in
  map (fun i => (start + inject_Z (Z.of_nat i) * step)%Q) (seq 0 num).

(** [np.trapz(y, x)] *)
Fixpoint trapz (y x : list Q) {struct y} : Q :=
  match y, x with
  | y0 :: y', x0 :: x' =>
      match y', x' with
      | y1 :: _, x1 :: _ => ((x1 - x0) * (y1 + y0) / 2 + trapz y' x')%Q
      | _, _ => 0%Q
      end
  | _, _ => 0%Q
  end.

(** [np.maximum(a, k)] *)
Definition maximum (a : list Q) (k : Q) : list Q :=
  map (fun v => if Qle_bool k v then v else k) a.

Fixpoint zip_with {A B C : Type} (f : A -> B -> C) (a : list A) (b : list B)
  : list C :=
  match a, b with
  | u :: a', v :: b' => f u v :: zip_with f a' b'
  | _, _ => []
  end.

(** Elementwise product and quotient of two arrays. *)
Definition multiply (a b : list Q) : list Q := zip_with Qmult a b.
Definition divide (a b : list Q) : list Q := zip_with Qdiv a b.

(** [np.zeros_like(a)] *)
Definition zeros_like {A : Type} (a : list A) : list Q :=
  map (fun _ => 0%Q) a.

(** A function of each pair of neighbours of an array. *)
Fixpoint adjacent {A : Type} (f : Q -> Q -> A) (e : list Q) : list A :=
  match e with
  | u :: e' =>
      match e' with
      | v :: _ => f u v :: adjacent f e'
      | [] => []
      end
  | [] => []
  end.

(** [np.diff(e)] *)
Definition diff (e : list Q) : list Q := adjacent (fun u v => v - u)%Q e.

(** How many values fall in each bin: a bin holds its left edge and not its
    right edge, except the last bin, which holds both. *)
Fixpoint bin_counts (data : list Z) (e : list Q) : list Z :=
  match e with
  | lo :: e' =>
      match e' with
      | hi :: rest =>
          let last := match rest with [] => true | _ :: _ => false end in
          let inside (v : Z) :=
            Qle_bool lo (inject_Z v)
            && (if last then Qle_bool (inject_Z v) hi
                else negb (Qle_bool hi (inject_Z v))) in
          Z.of_nat (length (filter inside data)) :: bin_counts data e'
      | [] => []
      end
  | [] => []
  end.

(** The range [np.histogram] spreads its bins over: the extent of the data,
    (0, 1) for no data, widened by a half on each side when it is a point. *)
Definition outer_edges (data : list Z) : Q * Q :=
  match data with
  | [] => (0, 1)%Q
  | _ =>
      let first := inject_Z (amin data) in
      let last := inject_Z (amax data) in
      if Qeq_bool first last then (first - (1 # 2), last + (1 # 2))%Q
      else (first, last)
  end.

(** [np.histogram(data, bins=bins)] for an integer number of bins: the
    counts and the [bins + 1] edges of equal-width bins. *)
Definition histogram (data : list Z) (bins : nat) : py (list Z * list Q) :=
  match bins with
  | O => Raise ValueError
  | S _ =>
      let (first, last) := outer_edges data in
      let bin_edges := linspace first last (bins + 1) in
      Ret (bin_counts data bin_edges, bin_edges)
  end.

End Np.

(** ** The statistics and the curve of comparison_MWD_con.py (lines 49-65) *)

Module ConScript.

Record stats : Type := {
  Mn : Q;
  Mw : option Q;
  PDI : option Q
}.

(** Lines 58-60. *)
Definition compute_moments (lengths : list Z) : stats :=
  let Mn := Np.mean lengths in
  let Mw :=
    Np.true_divide (inject_Z (Np.sum_i64 (Np.square_i64 lengths)))
                   (inject_Z (Np.sum_i64 lengths)) in
  let PDI :=
    match Mw with
    | Some mw => Np.true_divide mw Mn
    | None => None
    end in
  {| Mn := Mn; Mw := Mw; PDI := PDI |}.

Record curve : Type := {
  x : list Q;
  y : option (list Q);
  st : stats
}.

Inductive warning : Type :=
  | FileNotFoundWarning
  | EmptyDataWarning.

Section Kde.

(** [scipy.stats.gaussian_kde(dataset, weights=weights)]: building the
    estimator may raise, the estimator is a function of the point. *)
Variable gaussian_kde : list Z -> option (list Z) -> py (Q -> Q).

(** [y /= np.trapz(y, x)] *)
Definition normalize (y x : list Q) : option (list Q) :=
  let area := Np.trapz y x in
  if Qeq_bool area 0 then None else Some (map (fun v => v / area)%Q y).

(** Lines 62-65. *)
Definition weight_density (lengths : list Z)
  : py (list Q * option (list Q)) :=
  kde <- gaussian_kde lengths (Some lengths) ;;
  let x := Np.linspace (inject_Z (Np.amin lengths))
                       (inject_Z (Np.amax lengths)) 500 in
  let y := map kde x in
  Ret (x, normalize y x).

(** One turn of the loop over the conversion points: a warning and no curve,
    or the curve that is plotted. *)
Definition plot_one (f : file_state) : py (warning + curve) :=
  if negb (exists_ f) then Ret (inl FileNotFoundWarning)
  else
    lengths <- Con.read_chain_lengths f ;;
    match lengths with
    | [] => Ret (inl EmptyDataWarning)
    | _ =>
        let s := compute_moments lengths in
        xy <- weight_density lengths ;;
        Ret (inr {| x := fst xy; y := snd xy; st := s |})
    end.

End Kde.

End ConScript.

(** ** The pipeline of comparison_MWD_con_50.py *)

Module Pipeline.

Record moments : Type := {
  Mn : Q;
  Mw : Q;
  PDI : Q
}.

(** What the pipeline prints when it gives up, or goes on with a warning. *)
Inductive report : Type :=
  | FailedToRead            (* "Failed to read or process file" *)
  | EmptyFile               (* "File is empty or contains no valid ..." *)
  | NoChainsAfterFilter     (* "No valid chain lengths (>=3) after ..." *)
  | ZeroSumOfLengths        (* "Sum of filtered chain lengths is zero." *)
  | DensityError            (* "Error during KDE or Weight Fraction ..." *)
  | NormalizationFailure.   (* "Normalization factor ... is near zero" *)

(** Lines 54-56: the filtered array and the number of removed chains. *)
Definition filter_min_length (chain_lengths : list Z) (min_len : Z)
  : list Z * Z :=
  let total_chains := Z.of_nat (length chain_lengths) in
  let filtered_chain_lengths :=
    Np.bool_index chain_lengths (Np.ge_mask chain_lengths min_len) in
  let removed_chains :=
    total_chains - Z.of_nat (length filtered_chain_lengths) in
  (filtered_chain_lengths, removed_chains).

(** Lines 63-70. *)
Definition compute_moments (filtered_chain_lengths : list Z)
  : report + moments :=
  let sum_lengths := Np.sum_i64 filtered_chain_lengths in
  if sum_lengths =? 0 then inl ZeroSumOfLengths
  else
    let Mn := Np.mean filtered_chain_lengths in
    let Mw :=
      (Np.sum_f (Np.square_f (Np.astype_float64 filtered_chain_lengths))
       / inject_Z sum_lengths)%Q in
    let PDI := (Mw / Mn)%Q in
    inr {| Mn := Mn; Mw := Mw; PDI := PDI |}.

Definition epsilon : Q := 1 # 1000000000.

(** Python's [max(0, v)]. *)
Definition max0 (v : Q) : Q := if Qle_bool v 0 then 0%Q else v.

Record density : Type := {
  x_vals : list Q;
  y_vals : list Q;
  warned : bool
}.

(** Lines 92-102: from the number density to the weight fraction density. *)
Definition weight_fraction (x_vals kde_vals : list Q) : density :=
  let w_unnormalized := Np.multiply (Np.maximum x_vals epsilon) kde_vals in
  let norm_factor := Np.trapz w_unnormalized x_vals in
  if Qle_bool norm_factor epsilon then
    {| x_vals := x_vals; y_vals := Np.zeros_like w_unnormalized;
       warned := true |}
  else
    {| x_vals := x_vals;
       y_vals := map (fun w => w / norm_factor)%Q w_unnormalized;
       warned := false |}.

(** The dictionary the pipeline returns; its label, a formatted string, is
    left out. *)
Record mwd_data : Type := {
  curve : density;
  raw_data : list Z;
  stats : moments
}.

Section Kde.

Variable gaussian_kde : list Z -> option (list Z) -> py (Q -> Q).

(** Lines 80-102, the body of the [try] block. *)
Definition kernel_weight_density (filtered_chain_lengths : list Z) (Mn : Q)
  : py density :=
  kde <- gaussian_kde filtered_chain_lengths None ;;
  let min_val :=
    max0 (inject_Z (Np.amin filtered_chain_lengths) - (1 # 10) * Mn)%Q in
  let max_val :=
    (inject_Z (Np.amax filtered_chain_lengths) + (1 # 10) * Mn)%Q in
  let x_vals := Np.linspace min_val max_val 500 in
  let kde_vals := map kde x_vals in
  Ret (weight_fraction x_vals kde_vals).

(** Lines 46-121, given what the loader returned. *)
Definition process (loaded : option (list Z))
  : list report * option mwd_data :=
  match loaded with
  | None => ([FailedToRead], None)
  | Some [] => ([EmptyFile], None)
  | Some chain_lengths =>
      let (filtered_chain_lengths, removed_chains) :=
        filter_min_length chain_lengths 3 in
      match filtered_chain_lengths with
      | [] => ([NoChainsAfterFilter], None)
      | _ =>
          match compute_moments filtered_chain_lengths with
          | inl r => ([r], None)
          | inr m =>
              match kernel_weight_density filtered_chain_lengths (Mn m) with
              | Raise _ => ([DensityError], None)
              | Ret d =>
                  ((if warned d then [NormalizationFailure] else []),
                   Some {| curve := d; raw_data := filtered_chain_lengths;
                           stats := m |})
              end
          end
      end
  end.

Definition process_and_get_mwd_data (f : file_state)
  : list report * option mwd_data :=
  process (snd (Con50.read_chain_lengths f)).

End Kde.

Record histogram_curve : Type := {
  bin_edges : list Q;
  weight_fraction_values : list Q;
  bin_centers : list Q;
  hist_warned : bool
}.

(** Lines 123-154. *)
Definition calculate_weight_fraction_histogram (data : list Z) (bins : nat)
  : py histogram_curve :=
  cb <- Np.histogram data bins ;;
  let counts := fst cb in
  let bin_edges := snd cb in
  let bin_centers :=
    Np.adjacent (fun u v => (1 # 2) * (v + u))%Q bin_edges in
  let weight_counts := Np.multiply (Np.astype_float64 counts) bin_centers in
  let total_weight := Np.sum_f weight_counts in
  if Qle_bool total_weight 0 then
    Ret {| bin_edges := bin_edges;
           weight_fraction_values := Np.zeros_like counts;
           bin_centers := bin_centers; hist_warned := true |}
  else
    let bin_widths := Np.diff bin_edges in
    let weight_fraction :=
      Np.divide weight_counts (map (Qmult total_weight) bin_widths) in
    Ret {| bin_edges := bin_edges;
           weight_fraction_values := weight_fraction;
           bin_centers := bin_centers; hist_warned := false |}.

(** The discretized integral of a histogram: the sum of value times width. *)
Definition histogram_area (h : histogram_curve) : Q :=
  Np.sum_f (Np.multiply (weight_fraction_values h) (Np.diff (bin_edges h))).

End Pipeline.

(** ** The moment calculator in binary64 *)

Module Binary64.

(** An int64 between 0 and 2^63 - 1 as a float64. *)
Definition of_int (z : Z) : float := PrimFloat.of_uint63 (Uint63.of_Z z).

(** [np.sum] of a float64 array of fewer than 8 elements: NumPy adds them
    from the left (longer arrays are added pairwise). *)
Definition sum_f (a : list float) : float :=
  fold_left PrimFloat.add a 0%float.

(** Lines 63-70 of comparison_MWD_con_50.py, for fewer than 8 chains whose
    lengths add up to less than 2^63: Mn, Mw and PDI. *)
Definition compute_moments (filtered_chain_lengths : list Z)
  : option (float * float * float) :=
  let sum_lengths := Np.sum_i64 filtered_chain_lengths in
  if sum_lengths =? 0 then None
  else
    let Mn :=
      (sum_f (map of_int filtered_chain_lengths)
       / of_int (Z.of_nat (length filtered_chain_lengths)))%float in
    let Mw :=
      (sum_f (map (fun v => of_int v * of_int v) filtered_chain_lengths)
       / of_int sum_lengths)%float in
    let PDI := (Mw / Mn)%float in
    Some (Mn, Mw, PDI).

End Binary64.

(** ** The drivers *)

(** The files the scripts look at: what is found at each path. *)
Definition file_system : Type := string -> file_state.

(** [os.path.join(a, b)] for a relative [b] and a non-empty [a] that does
    not end with a separator. *)
Definition path_join (a b : string) : string := (a ++ "/" ++ b)%string.

(** A [for] loop whose body may raise: the results of the turns, or the
    first exception. *)
Fixpoint for_each {A B : Type} (body : A -> py B) (l : list A)
  : py (list B) :=
  match l with
  | [] => Ret []
  | a :: rest =>
      b <- body a ;;
      bs <- for_each body rest ;;
      Ret (b :: bs)
  end.

(** *** comparison_MWD_con.py, lines 31-81 *)

Module Script.

Definition conv_points : list string :=
  ["10"; "15"; "20"; "25"; "30"; "35"; "40"; "45"; "50"]%string.

Definition bases : list string := ["1e5"; "1e7"]%string.

Definition subfolders : list string := ["2"; "4"; "8"; "20"]%string.

Definition fname (base sub conv : string) : string :=
  path_join (path_join base sub) ("all_chain_conv_" ++ conv ++ ".out").

(** A saved figure: its file name and, for each of its two axes, what each
    conversion point gave.  Colours, labels and titles are left out. *)
Record figure : Type := {
  out_name : string;
  axes : list (list (ConScript.warning + ConScript.curve))
}.

Section Kde.

Variable gaussian_kde : list Z -> option (list Z) -> py (Q -> Q).
Variable fs : file_system.

(** Lines 47-68: the loop over the conversion points, for one axis. *)
Definition plot_axis (base sub : string)
  : py (list (ConScript.warning + ConScript.curve)) :=
  for_each
    (fun conv => ConScript.plot_one gaussian_kde (fs (fname base sub conv)))
    conv_points.

(** Lines 40-81: one turn of the loop over the subfolders. *)
Definition plot_subfolder (sub : string) : py figure :=
  a <- for_each (fun base => plot_axis base sub) bases ;;
  Ret {| out_name := "MWD_1e5_vs_1e7_" ++ sub ++ " times.png"; axes := a |}.

Definition run : py (list figure) := for_each plot_subfolder subfolders.

End Kde.

End Script.

(** *** comparison_MWD_con_50.py, lines 156-256 *)

Module Plots.

Inductive style : Type :=
  | histogram_style
  | line_style.

Record dataset_info : Type := {
  base_dir : string;
  label_prefix : string;
  dataset_style : style;
  color : string
}.

Definition datasets_info (folder_name : string) : list dataset_info :=
  [ {| base_dir := "1e5/" ++ folder_name; label_prefix := "1e5";
       dataset_style := histogram_style; color := "lightgreen" |};
    {| base_dir := "1e7/" ++ folder_name; label_prefix := "1e7";
       dataset_style := line_style; color := "green" |} ].

Definition common_filename : string := "all_chain_conv_50.out".

(** What is drawn on the figure: [plt.plot] or [plt.bar]. *)
Inductive drawing : Type :=
  | Line (x y : list Q) (color : string)
  | Bars (centers heights widths : list Q) (color : string).

(** What [create_plot_for_folder] does: what it printed about the data,
    what it drew, the file it saved, and the value it returns. *)
Record outcome : Type := {
  log : list Pipeline.report;
  drawn : list drawing;
  saved : option string;
  result : bool
}.

Section Kde.

Variable gaussian_kde : list Z -> option (list Z) -> py (Q -> Q).
Variable fs : file_system.

(** Lines 178-185: the datasets that could be processed, each with its
    style and colour, and what was printed on the way. *)
Fixpoint process_datasets (infos : list dataset_info)
  : list Pipeline.report * list (Pipeline.mwd_data * style * string) :=
  match infos with
  | [] => ([], [])
  | info :: rest =>
      let filepath := path_join (base_dir info) common_filename in
      let (msgs, processed_data) :=
        Pipeline.process_and_get_mwd_data gaussian_kde (fs filepath) in
      let (msgs', processed_datasets) := process_datasets rest in
      ((msgs ++ msgs')%list,
       match processed_data with
       | Some d => (d, dataset_style info, color info) :: processed_datasets
       | None => processed_datasets
       end)
  end.

(** Lines 189-213: one turn of the plotting loop. *)
Definition draw (data : Pipeline.mwd_data * style * string) : py drawing :=
  let '(d, st, col) := data in
  match st with
  | line_style =>
      Ret (Line (Pipeline.x_vals (Pipeline.curve d))
                (Pipeline.y_vals (Pipeline.curve d)) col)
  | histogram_style =>
      let num_bins := 25%nat in
      h <- Pipeline.calculate_weight_fraction_histogram
             (Pipeline.raw_data d) num_bins ;;
      Ret (Bars (Pipeline.bin_centers h) (Pipeline.weight_fraction_values h)
                (Np.diff (Pipeline.bin_edges h)) col)
  end.

Definition create_plot_for_folder (folder_name : string) : py outcome :=
  let (msgs, processed_datasets) :=
    process_datasets (datasets_info folder_name) in
  ds <- for_each draw processed_datasets ;;
  let plot_successful_count := length ds in
  if (0 <? plot_successful_count)%nat then
    Ret {| log := msgs; drawn := ds;
           saved := Some ("Combined_Conv50_MWD_WeightFraction-"
                          ++ folder_name ++ ".png")%string;
           result := true |}
  else Ret {| log := msgs; drawn := ds; saved := None; result := false |}.

Definition folders : list string := ["2"; "4"; "8"; "20"]%string.

(** Lines 243-256: the outcomes of the folders, and the number of plots the
    summary reports. *)
Definition main : py (list outcome * nat) :=
  outcomes <- for_each create_plot_for_folder folders ;;
  Ret (outcomes, length (filter result outcomes)).

End Kde.

End Plots.

(** ** Test data *)

Definition nl : string := String (ascii_of_nat 10) EmptyString.
Definition sup2 : string := String (ascii_of_nat 178) EmptyString.

(** Two chains whose lengths add up to 2^63, and one chain whose squared
    length is above 2^63. *)
Definition huge_chains : list Z := [2 ^ 62; 2 ^ 62].
Definition long_chain : list Z := [3037000500].

(** Four chains whose lengths add up to 2^64. *)
Definition four_huge_chains : list Z := [2 ^ 62; 2 ^ 62; 2 ^ 62; 2 ^ 62].

(** A small grid and an estimate on it. *)
Definition small_grid : list Q := [1; 2; 3; 4]%Q.
Definition small_estimate : list Q := [1 # 4; 1 # 2; 1 # 2; 1 # 4]%Q.

(** An estimator that is 1 everywhere, to run the kernel pipeline on. *)
Definition unit_kde (dataset : list Z) (weights : option (list Z))
  : py (Q -> Q) :=
  Ret (fun _ => 1%Q).

(** ** Notions used in the statements *)

(** The two loaders agree on a file: the same sequence, or both fail. *)
Definition loaders_agree (content : string) : Prop :=
  match Con.read_chain_lengths (Readable content),
        snd (Con50.read_chain_lengths (Readable content)) with
  | Ret a, Some b => a = b
  | Raise _, None => True
  | _, _ => False
  end.

(** The exact sum and sum of squares of a sequence of integers. *)
Definition zsum (l : list Z) : Z := fold_right Z.add 0 l.
Definition zsumsq (l : list Z) : Z := fold_right (fun v s => v * v + s) 0 l.

Definition all_equal (l : list Z) : Prop :=
  forall u v, In u l -> In v l -> u = v.

(** The sum of the squared distances of the elements to [a]. *)
Definition zdev (a : Z) (l : list Z) : Z :=
  fold_right (fun v s => (v - a) * (v - a) + s) 0 l.

(** The sum of a sequence of rationals, from the right. *)
Definition qsum (l : list Q) : Q := fold_right Qplus 0%Q l.

(** A token: at least one character, none of them whitespace. *)
Definition token (t : string) : Prop :=
  PyStr.is_empty t = false
  /\ PyStr.all_chars (fun c => negb (PyStr.isspace c)) t = true.

(** A string of digit characters that are not all decimal digits: it holds
    a superscript digit. *)
Definition superscript_token (t : string) : bool :=
  PyStr.isdigit t && negb (PyStr.isdecimal t).

(** A drawing as the figure needs it: a line of 500 points, or 25 bars that
    are not negative and whose areas add up to 1. *)
Definition drawing_ok (dr : Plots.drawing) : Prop :=
  match dr with
  | Plots.Line x y _ => length x = 500%nat /\ length y = 500%nat
  | Plots.Bars centers heights widths _ =>
      length centers = 25%nat /\ length heights = 25%nat
      /\ length widths = 25%nat
      /\ Forall (fun v => 0 <= v)%Q heights
      /\ (Np.sum_f (Np.multiply heights widths) == 1)%Q
  end.

(** A file system with the same file at every path. *)
Definition same_file (content : string) : file_system :=
  fun _ => Readable content.

(** Every token of a file has at most [n] characters.  Python's [int]
    converts a literal of at most 4300 digits (the default of
    [sys.int_max_str_digits]) and raises ValueError on a longer one, which
    [PyStr.int] leaves out; an integer of at most 18 digits is below 2^63,
    so that the array NumPy builds has element type int64. *)
Definition short_tokens (n : nat) (content : string) : bool :=
  forallb (fun t => Nat.leb (String.length t) n) (PyStr.split content).

(** * Properties *)

(** ** Characters, tokens and integer literals *)

Module PyStrFacts.

Import PyStr.

Ltac code_cases :=
  cbv beta zeta delta [isdecimal_char isdigit_char isspace digit_value] in *;
  repeat match goal with
  | c : ascii |- _ => generalize dependent (code c); clear c; intros
  end;
  repeat match goal with
  | |- context [N.leb ?a ?b] => destruct (N.leb_spec a b)
  | |- context [N.eqb ?a ?b] => destruct (N.eqb_spec a b)
  | H : context [N.leb ?a ?b] |- _ => destruct (N.leb_spec a b)
  | H : context [N.eqb ?a ?b] |- _ => destruct (N.eqb_spec a b)
  end;
  simpl in *; try reflexivity; try discriminate; try lia.

Lemma isdecimal_char_not_space (c : ascii) :
  isdecimal_char c = true -> isspace c = false.
Proof. intros H. code_cases. Qed.

Lemma isdecimal_char_isdigit_char (c : ascii) :
  isdecimal_char c = true -> isdigit_char c = true.
Proof. unfold isdigit_char. intros ->. reflexivity. Qed.

Lemma digit_value_nonneg (c : ascii) :
  isdecimal_char c = true -> 0 <= digit_value c.
Proof. intros H. code_cases. Qed.

Lemma isdigit_char_not_sign (c : ascii) :
  isdigit_char c = true ->
  Ascii.eqb c "-"%char = false /\ Ascii.eqb c "+"%char = false.
Proof.
  intros H. split.
  - destruct (Ascii.eqb_spec c "-"%char) as [-> | _];
      [discriminate H | reflexivity].
  - destruct (Ascii.eqb_spec c "+"%char) as [-> | _];
      [discriminate H | reflexivity].
Qed.

Lemma all_chars_impl (p q : ascii -> bool) (s : string) :
  (forall c, p c = true -> q c = true) ->
  all_chars p s = true -> all_chars q s = true.
Proof.
  intros Hpq. induction s as [| c s IH]; simpl; [reflexivity |].
  intros H. apply andb_true_iff in H as [Hc Hs].
  rewrite (Hpq c Hc), (IH Hs). reflexivity.
Qed.

Lemma isdecimal_isdigit (s : string) : isdecimal s = true -> isdigit s = true.
Proof.
  unfold isdecimal, isdigit. intros H.
  apply andb_true_iff in H as [-> H]. simpl.
  exact (all_chars_impl _ _ s isdecimal_char_isdigit_char H).
Qed.

Lemma rstrip_decimal (s : string) :
  all_chars isdecimal_char s = true -> rstrip s = s.
Proof.
  induction s as [| c s IH]; simpl; [reflexivity |].
  intros H. apply andb_true_iff in H as [Hc Hs].
  rewrite (isdecimal_char_not_space c Hc), (IH Hs). reflexivity.
Qed.

(** [strip] leaves a string of decimal digits as it is. *)
Lemma strip_decimal (s : string) : isdecimal s = true -> strip s = s.
Proof.
  unfold isdecimal, strip. intros H.
  apply andb_true_iff in H as [_ H].
  destruct s as [| c s]; [reflexivity |].
  assert (Hc : isspace c = false).
  { simpl in H. apply andb_true_iff in H as [Hc _].
    exact (isdecimal_char_not_space c Hc). }
  simpl lstrip. rewrite Hc. exact (rstrip_decimal _ H).
Qed.

Lemma int_digits_decimal (s : string) :
  all_chars isdecimal_char s = true ->
  forall acc, exists z, int_digits s acc true = Some z.
Proof.
  induction s as [| c s IH]; simpl; intros H acc.
  - exists acc. reflexivity.
  - apply andb_true_iff in H as [Hc Hs]. rewrite Hc. apply (IH Hs).
Qed.

(** [int] accepts every non-empty string of decimal digits. *)
Lemma int_decimal (s : string) :
  isdecimal s = true -> exists z, int s = Ret z.
Proof.
  intros H. unfold int. rewrite (strip_decimal s H).
  unfold isdecimal in H. apply andb_true_iff in H as [Hne H].
  destruct s as [| c s]; simpl in H.
  - discriminate Hne.
  - apply andb_true_iff in H as [Hc Hs].
    destruct (isdigit_char_not_sign c (isdecimal_char_isdigit_char c Hc))
      as [Hm Hp].
    unfold int_literal. rewrite Hm, Hp.
    assert (Hz : exists z, int_digits (String c s) 0 false = Some z).
    { simpl. rewrite Hc. apply (int_digits_decimal s Hs). }
    destruct Hz as [z ->]. exists z. reflexivity.
Qed.

Lemma int_digits_nonneg (s : string) :
  forall acc prev z,
    0 <= acc -> int_digits s acc prev = Some z -> 0 <= z.
Proof.
  induction s as [| c s IH]; simpl; intros acc prev z Hacc H.
  - destruct prev; [injection H as <-; exact Hacc | discriminate].
  - destruct (isdecimal_char c) eqn:Hc.
    + apply (IH (10 * acc + digit_value c) true z); [| exact H].
      pose proof (digit_value_nonneg c Hc). lia.
    + destruct (Ascii.eqb c "_"%char); [| discriminate].
      destruct prev; [| discriminate]. exact (IH _ _ _ Hacc H).
Qed.

(** A token that passes [isdigit] and that [int] accepts is not negative. *)
Lemma isdigit_int_nonneg (s : string) (z : Z) :
  isdigit (strip s) = true -> int s = Ret z -> 0 <= z.
Proof.
  unfold int, isdigit. intros Hd H.
  destruct (int_literal (strip s)) as [v |] eqn:Hv; [| discriminate].
  injection H as ->.
  destruct (strip s) as [| c t]; [discriminate |].
  simpl in Hd. apply andb_true_iff in Hd as [Hc _].
  destruct (isdigit_char_not_sign c Hc) as [Hm Hp].
  unfold int_literal in Hv. rewrite Hm, Hp in Hv.
  exact (int_digits_nonneg _ 0 false z ltac:(lia) Hv).
Qed.

End PyStrFacts.

(** ** The loaders *)

Module LoaderFacts.

Import PyStr PyStrFacts.

Lemma int_digit_tokens_nonneg (data : list string) :
  forall a, Con50.int_digit_tokens data = Ret a -> Forall (fun v => 0 <= v) a.
Proof.
  induction data as [| t rest IH]; simpl; intros a H.
  - injection H as <-. constructor.
  - destruct (isdigit (strip t)) eqn:Hd; [| exact (IH a H)].
    destruct (int t) as [n | e] eqn:Hn; simpl in H; [| discriminate].
    destruct (Con50.int_digit_tokens rest) as [l | e]; simpl in H;
      [| discriminate].
    injection H as <-. constructor.
    + exact (isdigit_int_nonneg t n Hd Hn).
    + exact (IH l eq_refl).
Qed.

(** What the loader of comparison_MWD_con_50.py returns for a readable
    file, in terms of the list comprehension. *)
Lemma read_chain_lengths_50_readable (content : string) :
  snd (Con50.read_chain_lengths (Readable content)) =
  match Con50.int_digit_tokens (split content) with
  | Ret a => Some a
  | Raise _ => None
  end.
Proof.
  unfold Con50.read_chain_lengths, Con50.read_body. simpl.
  destruct (Con50.int_digit_tokens (split content)) as [a | e]; simpl.
  - destruct a; reflexivity.
  - destruct e; reflexivity.
Qed.

Lemma read_chain_lengths_50_nonneg (f : file_state) (a : list Z) :
  snd (Con50.read_chain_lengths f) = Some a -> Forall (fun v => 0 <= v) a.
Proof.
  destruct f as [| | content].
  - discriminate.
  - discriminate.
  - rewrite read_chain_lengths_50_readable.
    destruct (Con50.int_digit_tokens (split content)) as [l | e] eqn:Hl;
      [| discriminate].
    intros H. injection H as <-. exact (int_digit_tokens_nonneg _ l Hl).
Qed.

(** On tokens that are all strings of decimal digits the two list
    comprehensions build the same list. *)
Lemma comprehensions_agree (data : list string) :
  forallb isdecimal data = true ->
  exists a, Con.int_all data = Ret a /\ Con50.int_digit_tokens data = Ret a.
Proof.
  induction data as [| t rest IH]; simpl; intros H.
  - exists []. split; reflexivity.
  - apply andb_true_iff in H as [Ht Hrest].
    destruct (IH Hrest) as [l [Hc Hc50]].
    destruct (int_decimal t Ht) as [n Hn].
    rewrite (strip_decimal t Ht), (isdecimal_isdigit t Ht), Hn, Hc, Hc50.
    exists (n :: l). split; reflexivity.
Qed.

(** The loader of comparison_MWD_con_50.py is lenient: when every token
    that passes [isdigit] is made of decimal digits only, it returns the
    integers of those tokens, in their order, and drops the others. *)
Lemma digit_tokens_kept (data : list string) :
  (forall t, In t data -> isdigit (strip t) = true -> isdecimal t = true) ->
  exists a,
    Con50.int_digit_tokens data = Ret a
    /\ Con.int_all (filter isdecimal data) = Ret a.
Proof.
  induction data as [| t rest IH]; intros Hdec.
  - exists []. split; reflexivity.
  - destruct IH as [l [H50 Hcon]].
    { intros u Hu. apply Hdec. right. exact Hu. }
    simpl. destruct (isdigit (strip t)) eqn:Hd.
    + assert (Ht : isdecimal t = true) by (apply Hdec; [left |]; auto).
      destruct (int_decimal t Ht) as [n Hn].
      rewrite Ht. simpl. rewrite Hn, H50, Hcon.
      exists (n :: l). split; reflexivity.
    + destruct (isdecimal t) eqn:Ht.
      * rewrite (strip_decimal t Ht), (isdecimal_isdigit t Ht) in Hd.
        discriminate Hd.
      * exists l. split; assumption.
Qed.

End LoaderFacts.

(** ** Integer and rational sums *)

Module NpFacts.

Import Np.

Lemma wrap64_id (z : Z) : int64_range z -> wrap64 z = z.
Proof.
  unfold int64_range, wrap64. intros H.
  rewrite Z.mod_small by lia. lia.
Qed.

Lemma wrap64_add_l (a b : Z) : wrap64 (wrap64 a + b) = wrap64 (a + b).
Proof.
  unfold wrap64.
  replace ((a + 2 ^ 63) mod 2 ^ 64 - 2 ^ 63 + b + 2 ^ 63)
    with ((a + 2 ^ 63) mod 2 ^ 64 + b) by lia.
  rewrite Zplus_mod_idemp_l.
  replace (a + 2 ^ 63 + b) with (a + b + 2 ^ 63) by lia. reflexivity.
Qed.

Lemma wrap64_add_r (a b : Z) : wrap64 (a + wrap64 b) = wrap64 (a + b).
Proof. rewrite Z.add_comm, wrap64_add_l, Z.add_comm. reflexivity. Qed.

Lemma sum_i64_from (a : list Z) :
  forall acc,
    fold_left (fun s v => wrap64 (s + v)) a (wrap64 acc) =
    wrap64 (acc + zsum a).
Proof.
  induction a as [| v a IH]; simpl; intros acc.
  - rewrite Z.add_0_r. reflexivity.
  - rewrite wrap64_add_l, IH. f_equal. lia.
Qed.

(** The int64 sum is the exact sum, wrapped. *)
Lemma sum_i64_spec (a : list Z) : sum_i64 a = wrap64 (zsum a).
Proof.
  unfold sum_i64. change 0 with (wrap64 0) at 1.
  rewrite sum_i64_from. reflexivity.
Qed.

Lemma sum_sq_i64_from (a : list Z) :
  forall acc,
    fold_left (fun s v => wrap64 (s + v)) (square_i64 a) (wrap64 acc) =
    wrap64 (acc + zsumsq a).
Proof.
  induction a as [| v a IH]; simpl; intros acc.
  - rewrite Z.add_0_r. reflexivity.
  - rewrite wrap64_add_l, wrap64_add_r.
    rewrite IH. f_equal. lia.
Qed.

(** The int64 sum of the int64 squares is the exact sum of squares,
    wrapped. *)
Lemma sum_sq_i64_spec (a : list Z) :
  sum_i64 (square_i64 a) = wrap64 (zsumsq a).
Proof.
  unfold sum_i64. change 0 with (wrap64 0) at 1.
  rewrite sum_sq_i64_from. reflexivity.
Qed.

Lemma fold_left_Qplus (l : list Q) :
  forall acc, (fold_left Qplus l acc == acc + qsum l)%Q.
Proof.
  induction l as [| v l IH]; simpl; intros acc.
  - ring.
  - rewrite IH. ring.
Qed.

Lemma sum_f_qsum (l : list Q) : (sum_f l == qsum l)%Q.
Proof. unfold sum_f. rewrite fold_left_Qplus. ring. Qed.

Lemma qsum_inject (a : list Z) :
  (qsum (astype_float64 a) == inject_Z (zsum a))%Q.
Proof.
  induction a as [| v a IH]; simpl.
  - reflexivity.
  - rewrite IH, inject_Z_plus. reflexivity.
Qed.

Lemma qsum_squares (a : list Z) :
  (qsum (square_f (astype_float64 a)) == inject_Z (zsumsq a))%Q.
Proof.
  induction a as [| v a IH]; simpl.
  - reflexivity.
  - rewrite IH, inject_Z_plus, inject_Z_mult. reflexivity.
Qed.

(** The float64 sum of the float64 squares is the exact sum of squares. *)
Lemma sum_f_squares (a : list Z) :
  (sum_f (square_f (astype_float64 a)) == inject_Z (zsumsq a))%Q.
Proof. rewrite sum_f_qsum. apply qsum_squares. Qed.

Lemma mean_spec (a : list Z) :
  (mean a == inject_Z (zsum a) / inject_Z (Z.of_nat (length a)))%Q.
Proof.
  unfold mean. rewrite sum_f_qsum, qsum_inject. reflexivity.
Qed.

Lemma zsum_lower (l : list Z) :
  Forall (fun v => 1 <= v) l -> Z.of_nat (length l) <= zsum l.
Proof.
  induction 1 as [| v l Hv _ IH]; simpl length; simpl zsum.
  - lia.
  - rewrite Nat2Z.inj_succ. lia.
Qed.

Lemma zsum_le_zsumsq (l : list Z) :
  Forall (fun v => 1 <= v) l -> zsum l <= zsumsq l.
Proof.
  induction 1 as [| v l Hv _ IH]; simpl.
  - lia.
  - nia.
Qed.

(** The spread of a sequence: [n * sum of squares - (sum)^2]. *)
Lemma zdev_expand (a : Z) (l : list Z) :
  zdev a l =
  zsumsq l - 2 * a * zsum l + Z.of_nat (length l) * (a * a).
Proof.
  induction l as [| v l IH]; simpl zdev; simpl zsumsq; simpl zsum;
    simpl length.
  - lia.
  - rewrite Nat2Z.inj_succ, IH. ring.
Qed.

Lemma spread_cons (a : Z) (l : list Z) :
  Z.of_nat (length (a :: l)) * zsumsq (a :: l)
    - zsum (a :: l) * zsum (a :: l) =
  (Z.of_nat (length l) * zsumsq l - zsum l * zsum l) + zdev a l.
Proof.
  rewrite zdev_expand. simpl zsumsq; simpl zsum; simpl length.
  rewrite Nat2Z.inj_succ. ring.
Qed.

Lemma zdev_nonneg (a : Z) (l : list Z) : 0 <= zdev a l.
Proof.
  induction l as [| v l IH].
  - simpl. lia.
  - change (zdev a (v :: l)) with ((v - a) * (v - a) + zdev a l).
    pose proof (Z.square_nonneg (v - a)). lia.
Qed.

Lemma zdev_zero (a : Z) (l : list Z) :
  zdev a l = 0 <-> (forall v, In v l -> v = a).
Proof.
  induction l as [| v l IH].
  - simpl. split; [intros _ u [] | reflexivity].
  - change (zdev a (v :: l)) with ((v - a) * (v - a) + zdev a l).
    pose proof (zdev_nonneg a l) as Hd.
    pose proof (Z.square_nonneg (v - a)) as Hs. split.
    + intros H u [<- | Hu].
      * nia.
      * apply IH; [lia | exact Hu].
    + intros H.
      assert (Hv : v = a) by (apply H; left; reflexivity).
      assert (Hl : zdev a l = 0).
      { apply IH. intros u Hu. apply H. right. exact Hu. }
      subst v. rewrite Hl. lia.
Qed.

(** Cauchy-Schwarz for a sequence against the constant sequence. *)
Lemma spread_nonneg (l : list Z) :
  zsum l * zsum l <= Z.of_nat (length l) * zsumsq l.
Proof.
  induction l as [| a l IH].
  - simpl. lia.
  - pose proof (spread_cons a l). pose proof (zdev_nonneg a l). lia.
Qed.

Lemma spread_zero (l : list Z) :
  zsum l * zsum l = Z.of_nat (length l) * zsumsq l <-> all_equal l.
Proof.
  induction l as [| a l IH].
  - simpl. split; [intros _ u v [] | reflexivity].
  - pose proof (spread_cons a l) as Hc.
    pose proof (zdev_nonneg a l) as Hd.
    pose proof (spread_nonneg l) as Hn.
    pose proof (zdev_zero a l) as Hz. split.
    + intros H.
      assert (Hl : zdev a l = 0) by lia.
      assert (Ha : forall v, In v l -> v = a) by (apply Hz; exact Hl).
      intros u v [<- | Hu] [<- | Hv].
      * reflexivity.
      * symmetry. apply Ha, Hv.
      * apply Ha, Hu.
      * rewrite (Ha u Hu), (Ha v Hv). reflexivity.
    + intros H.
      assert (Hl : zdev a l = 0).
      { apply Hz. intros v Hv. apply H; [right; exact Hv | left; reflexivity]. }
      assert (Hall : all_equal l).
      { intros u v Hu Hv. apply H; right; assumption. }
      apply IH in Hall. lia.
Qed.

End NpFacts.

(** ** Mn, Mw and PDI *)

Module MomentFacts.
Import Np NpFacts.

Lemma inject_Z_pos (z : Z) : 0 < z -> (0 < inject_Z z)%Q.
Proof. intros H. change 0%Q with (inject_Z 0). rewrite <- Zlt_Qlt. exact H. Qed.

Lemma inject_Z_nonzero (z : Z) : z <> 0 -> ~ (inject_Z z == 0)%Q.
Proof.
  intros H E. apply H. change 0%Q with (inject_Z 0) in E.
  apply (proj1 (inject_Z_injective z 0) E).
Qed.

(** Comparing [s / n] with [q / s] is comparing [s * s] with [n * q]. *)
Lemma ratio_le_cross (s n q : Z) :
  0 < s -> 0 < n ->
  (inject_Z s / inject_Z n <= inject_Z q / inject_Z s)%Q <-> s * s <= n * q.
Proof.
  intros Hs Hn.
  pose proof (inject_Z_pos s Hs) as Hs'. pose proof (inject_Z_pos n Hn) as Hn'.
  rewrite (Zle_Qle (s * s) (n * q)), !inject_Z_mult.
  split; intros H.
  - apply (Qmult_le_r _ _ (/ (inject_Z n * inject_Z s))).
    + apply Qinv_lt_0_compat. apply Qmult_lt_0_compat; assumption.
    + setoid_replace (inject_Z s * inject_Z s * / (inject_Z n * inject_Z s))%Q
        with (inject_Z s / inject_Z n)%Q by (field; split; lra).
      setoid_replace (inject_Z n * inject_Z q * / (inject_Z n * inject_Z s))%Q
        with (inject_Z q / inject_Z s)%Q by (field; split; lra).
      exact H.
  - apply (Qmult_le_r _ _ (/ (inject_Z n * inject_Z s))) in H.
    + setoid_replace (inject_Z s * inject_Z s * / (inject_Z n * inject_Z s))%Q
        with (inject_Z s / inject_Z n)%Q in H by (field; split; lra).
      setoid_replace (inject_Z n * inject_Z q * / (inject_Z n * inject_Z s))%Q
        with (inject_Z q / inject_Z s)%Q in H by (field; split; lra).
      exact H.
    + apply Qinv_lt_0_compat. apply Qmult_lt_0_compat; assumption.
Qed.

Lemma ratio_eq_cross (s n q : Z) :
  0 < s -> 0 < n ->
  (inject_Z q / inject_Z s == inject_Z s / inject_Z n)%Q <-> s * s = n * q.
Proof.
  intros Hs Hn.
  pose proof (inject_Z_pos s Hs) as Hs'. pose proof (inject_Z_pos n Hn) as Hn'.
  split; intros H.
  - apply (proj1 (inject_Z_injective _ _)). rewrite !inject_Z_mult.
    setoid_replace (inject_Z n * inject_Z q)%Q
      with (inject_Z n * inject_Z s * (inject_Z q / inject_Z s))%Q
      by (field; lra).
    rewrite H. field. lra.
  - assert (E : (inject_Z s * inject_Z s == inject_Z n * inject_Z q)%Q).
    { rewrite <- !inject_Z_mult, H. reflexivity. }
    setoid_replace (inject_Z q / inject_Z s)%Q
      with (inject_Z n * inject_Z q / (inject_Z n * inject_Z s))%Q
      by (field; split; lra).
    rewrite <- E. field. split; lra.
Qed.


Lemma zsum_pos (l : list Z) :
  l <> [] -> Forall (fun v => 1 <= v) l ->
  0 < Z.of_nat (length l) <= zsum l.
Proof.
  intros Hne Hpos. pose proof (zsum_lower l Hpos).
  destruct l; [contradiction | simpl length in *]. lia.
Qed.

Lemma Qeq_bool_false (a : Q) : ~ (a == 0)%Q -> Qeq_bool a 0 = false.
Proof.
  intros H. destruct (Qeq_bool a 0) eqn:E; [| reflexivity].
  apply Qeq_bool_eq in E. contradiction.
Qed.

Lemma mean_pos (l : list Z) :
  l <> [] -> Forall (fun v => 1 <= v) l -> (0 < mean l)%Q.
Proof.
  intros Hne Hpos. destruct (zsum_pos l Hne Hpos) as [Hn Hs].
  rewrite mean_spec. apply Qlt_shift_div_l.
  - apply inject_Z_pos. exact Hn.
  - rewrite Qmult_0_l. apply inject_Z_pos. lia.
Qed.

(** Order and equality of [Mn = s / n] and [Mw = q / s], and of their
    ratio and 1. *)
Lemma moments_order (l : list Z) (mn mw : Q) :
  l <> [] -> Forall (fun v => 1 <= v) l ->
  (mn == inject_Z (zsum l) / inject_Z (Z.of_nat (length l)))%Q ->
  (mw == inject_Z (zsumsq l) / inject_Z (zsum l))%Q ->
  (mn <= mw)%Q /\ (1 <= mw / mn)%Q
  /\ ((mw == mn)%Q <-> all_equal l) /\ ((mw / mn == 1)%Q <-> all_equal l).
Proof.
  intros Hne Hpos Hmn Hmw.
  destruct (zsum_pos l Hne Hpos) as [Hn Hs].
  assert (Hs' : 0 < zsum l) by lia.
  assert (Hmn0 : (0 < mn)%Q).
  { rewrite Hmn. apply Qlt_shift_div_l.
    - apply inject_Z_pos. exact Hn.
    - rewrite Qmult_0_l. apply inject_Z_pos. exact Hs'. }
  assert (Hle : (mn <= mw)%Q).
  { rewrite Hmn, Hmw. apply ratio_le_cross; try assumption.
    apply spread_nonneg. }
  assert (Heq : (mw == mn)%Q <-> all_equal l).
  { rewrite Hmn, Hmw, ratio_eq_cross by assumption. apply spread_zero. }
  repeat split.
  - exact Hle.
  - apply Qle_shift_div_l; [exact Hmn0 | rewrite Qmult_1_l; exact Hle].
  - apply Heq.
  - apply Heq.
  - intros H. apply Heq.
    setoid_replace mw with (mw / mn * mn)%Q by (field; lra).
    rewrite H. ring.
  - intros H. apply Heq in H. rewrite H. field. lra.
Qed.

(** The moments of comparison_MWD_con_50.py when the sum fits an int64. *)
Lemma pipeline_moments_exact (l : list Z) :
  l <> [] -> Forall (fun v => 1 <= v) l -> zsum l < 2 ^ 63 ->
  exists m,
    Pipeline.compute_moments l = inr m
    /\ (Pipeline.Mn m ==
        inject_Z (zsum l) / inject_Z (Z.of_nat (length l)))%Q
    /\ (Pipeline.Mw m == inject_Z (zsumsq l) / inject_Z (zsum l))%Q
    /\ Pipeline.PDI m = (Pipeline.Mw m / Pipeline.Mn m)%Q.
Proof.
  intros Hne Hpos Hfit. destruct (zsum_pos l Hne Hpos) as [Hn Hs].
  unfold Pipeline.compute_moments.
  rewrite sum_i64_spec, wrap64_id by (unfold int64_range; lia).
  destruct (Z.eqb_spec (zsum l) 0) as [E | _]; [lia |].
  eexists. split; [reflexivity |]. simpl. repeat split.
  - apply mean_spec.
  - rewrite sum_f_squares. reflexivity.
Qed.

(** The moments of comparison_MWD_con.py when the sum of squares fits an
    int64. *)
Lemma script_moments_exact (l : list Z) :
  l <> [] -> Forall (fun v => 1 <= v) l -> zsumsq l < 2 ^ 63 ->
  exists mw pdi,
    ConScript.Mw (ConScript.compute_moments l) = Some mw
    /\ ConScript.PDI (ConScript.compute_moments l) = Some pdi
    /\ (ConScript.Mn (ConScript.compute_moments l) ==
        inject_Z (zsum l) / inject_Z (Z.of_nat (length l)))%Q
    /\ (mw == inject_Z (zsumsq l) / inject_Z (zsum l))%Q
    /\ pdi = (mw / ConScript.Mn (ConScript.compute_moments l))%Q.
Proof.
  intros Hne Hpos Hfit. destruct (zsum_pos l Hne Hpos) as [Hn Hs].
  pose proof (zsum_le_zsumsq l Hpos) as Hq.
  assert (Hsq : sum_i64 (square_i64 l) = zsumsq l).
  { rewrite sum_sq_i64_spec. apply wrap64_id. unfold int64_range. lia. }
  assert (Hsm : sum_i64 l = zsum l).
  { rewrite sum_i64_spec. apply wrap64_id. unfold int64_range. lia. }
  assert (Hd : true_divide (inject_Z (zsumsq l)) (inject_Z (zsum l)) =
               Some (inject_Z (zsumsq l) / inject_Z (zsum l))%Q).
  { unfold true_divide. rewrite Qeq_bool_false; [reflexivity |].
    apply inject_Z_nonzero. lia. }
  unfold ConScript.compute_moments.
  cbn [ConScript.Mw ConScript.PDI ConScript.Mn].
  rewrite Hsq, Hsm, Hd. unfold true_divide.
  rewrite (Qeq_bool_false (mean l))
    by (pose proof (mean_pos l Hne Hpos); lra).
  do 2 eexists. repeat split.
  - apply mean_spec.
Qed.

End MomentFacts.

(** ** The filter *)

Module FilterFacts.

Import Np.

(** Indexing with the mask [a >= k] keeps the elements that are at least
    [k], in their order. *)
Lemma bool_index_ge_mask (a : list Z) (k : Z) :
  bool_index a (ge_mask a k) = filter (fun v => k <=? v) a.
Proof.
  unfold ge_mask. induction a as [| v a IH]; simpl.
  - reflexivity.
  - rewrite IH. reflexivity.
Qed.

Lemma filter_split_length (p : Z -> bool) (a : list Z) :
  (length (filter p a) + length (filter (fun v => negb (p v)) a)
   = length a)%nat.
Proof.
  induction a as [| v a IH]; simpl.
  - reflexivity.
  - destruct (p v); simpl; lia.
Qed.

Lemma filter_ext_bool (p q : Z -> bool) (a : list Z) :
  (forall v, p v = q v) -> filter p a = filter q a.
Proof.
  intros H. induction a as [| v a IH]; simpl.
  - reflexivity.
  - rewrite H, IH. reflexivity.
Qed.

Lemma removed_count (a : list Z) (k : Z) :
  Z.of_nat (length a) - Z.of_nat (length (filter (fun v => k <=? v) a))
  = Z.of_nat (length (filter (fun v => v <? k) a)).
Proof.
  pose proof (filter_split_length (fun v => k <=? v) a) as H.
  rewrite (filter_ext_bool (fun v => negb (k <=? v)) (fun v => v <? k)) in H.
  - lia.
  - intros v. destruct (Z.leb_spec k v), (Z.ltb_spec v k); simpl;
      try reflexivity; lia.
Qed.

End FilterFacts.

(** ** The density curves *)

Module DensityFacts.

Import Np NpFacts MomentFacts.

Lemma zeros_like_zero {A : Type} (a : list A) :
  Forall (fun v => v = 0%Q) (zeros_like a).
Proof.
  unfold zeros_like. induction a as [| u a IH]; simpl; constructor;
    [reflexivity | exact IH].
Qed.

Lemma trapz_cons2 (y0 y1 : Q) (y' : list Q) (x0 x1 : Q) (x' : list Q) :
  trapz (y0 :: y1 :: y') (x0 :: x1 :: x') =
  ((x1 - x0) * (y1 + y0) / 2 + trapz (y1 :: y') (x1 :: x'))%Q.
Proof. reflexivity. Qed.

(** The trapezoidal integral is linear in the curve. *)
Lemma trapz_scale (c : Q) (y : list Q) :
  forall x, (trapz (map (fun v => v / c) y) x == trapz y x / c)%Q.
Proof.
  induction y as [| y0 y IH]; intros x.
  - simpl. unfold Qdiv. ring.
  - destruct y as [| y1 y'].
    + destruct x as [| x0 x']; simpl; unfold Qdiv; ring.
    + destruct x as [| x0 [| x1 x']].
      * simpl. unfold Qdiv. ring.
      * simpl. unfold Qdiv. ring.
      * change (map (fun v => v / c) (y0 :: y1 :: y'))%Q
          with ((y0 / c) :: map (fun v => v / c) (y1 :: y'))%Q.
        change (map (fun v => v / c) (y1 :: y'))%Q
          with ((y1 / c) :: map (fun v => v / c) y')%Q at 1.
        rewrite !trapz_cons2.
        change ((y1 / c) :: map (fun v => v / c) y')%Q
          with (map (fun v => v / c) (y1 :: y'))%Q.
        rewrite (IH (x1 :: x')). unfold Qdiv. ring.
Qed.

Lemma trapz_normalized (c : Q) (y x : list Q) :
  (trapz y x == c)%Q -> ~ (c == 0)%Q ->
  (trapz (map (fun v => v / c) y) x == 1)%Q.
Proof.
  intros Hc Hnz. rewrite trapz_scale, Hc. field. exact Hnz.
Qed.

Lemma within_tolerance (a : Q) : (a == 1)%Q -> (Qabs (a - 1) <= 1 # 1000)%Q.
Proof.
  intros H. rewrite H.
  setoid_replace (1 - 1)%Q with 0%Q by ring. discriminate.
Qed.

(** Lines 92-102 of comparison_MWD_con_50.py: without a warning the curve
    has unit area. *)
Lemma weight_fraction_area (x k : list Q) :
  Pipeline.warned (Pipeline.weight_fraction x k) = false ->
  (trapz (Pipeline.y_vals (Pipeline.weight_fraction x k))
         (Pipeline.x_vals (Pipeline.weight_fraction x k)) == 1)%Q.
Proof.
  unfold Pipeline.weight_fraction.
  destruct (Qle_bool (trapz (multiply (maximum x Pipeline.epsilon) k) x)
                     Pipeline.epsilon) eqn:E; simpl.
  - discriminate.
  - intros _. apply trapz_normalized; [reflexivity |].
    intros H. rewrite H in E. discriminate E.
Qed.

Lemma kernel_weight_density_inv
    (gaussian_kde : list Z -> option (list Z) -> py (Q -> Q))
    (sample : list Z) (Mn : Q) (d : Pipeline.density) :
  Pipeline.kernel_weight_density gaussian_kde sample Mn = Ret d ->
  exists x k, d = Pipeline.weight_fraction x k.
Proof.
  unfold Pipeline.kernel_weight_density.
  destruct (gaussian_kde sample None) as [kde | e]; simpl; [| discriminate].
  intros H. injection H as <-. eexists. eexists. reflexivity.
Qed.

(** Lines 62-65 of comparison_MWD_con.py: a finite curve has unit area. *)
Lemma normalize_area (y x y' : list Q) :
  ConScript.normalize y x = Some y' -> (trapz y' x == 1)%Q.
Proof.
  unfold ConScript.normalize.
  destruct (Qeq_bool (trapz y x) 0) eqn:E; [discriminate |].
  intros H. injection H as <-.
  apply trapz_normalized; [reflexivity |].
  intros H. apply Qeq_eq_bool in H. rewrite H in E. discriminate E.
Qed.

(** *** The histogram *)

Local Abbreviation center := (fun u v : Q => (1 # 2) * (v + u))%Q.

Local Abbreviation weighted data e :=
  (multiply (astype_float64 (bin_counts data e)) (adjacent center e)).

Lemma count_in_bin (p : Z -> bool) (data : list Z) (v : Z) :
  In v data -> p v = true -> 1 <= Z.of_nat (length (filter p data)).
Proof.
  intros Hin Hp.
  assert (H : In v (filter p data)) by (apply filter_In; split; assumption).
  destruct (filter p data); [contradiction | simpl length]. lia.
Qed.

Lemma weighted_nonneg (data : list Z) (e : list Q) :
  Forall (fun u => 0 < u)%Q e -> (0 <= qsum (weighted data e))%Q.
Proof.
  induction e as [| lo e IH]; intros Hpos.
  - simpl. lra.
  - destruct e as [| hi rest].
    + simpl. lra.
    + inversion Hpos as [| ? ? Hlo Hrest]; subst.
      inversion Hrest as [| ? ? Hhi _]; subst.
      specialize (IH Hrest).
      change (qsum (weighted data (lo :: hi :: rest)))
        with (inject_Z (Z.of_nat (length (filter
                (fun v =>
                   Qle_bool lo (inject_Z v)
                   && (if match rest with [] => true | _ :: _ => false end
                       then Qle_bool (inject_Z v) hi
                       else negb (Qle_bool hi (inject_Z v)))) data)))
              * ((1 # 2) * (hi + lo))
              + qsum (weighted data (hi :: rest)))%Q.
      match goal with
      | |- (0 <= inject_Z (Z.of_nat ?n) * _ + _)%Q =>
          assert (Hc : (0 <= inject_Z (Z.of_nat n))%Q)
            by (change 0%Q with (inject_Z 0); rewrite <- Zle_Qle; lia)
      end.
      nra.
Qed.

(** A value between the first and the last edge falls in some bin, and the
    weighted count of that bin is positive. *)
Lemma weighted_pos (data : list Z) (v : Z) (e : list Q) :
  In v data -> Forall (fun u => 0 < u)%Q e -> (2 <= length e)%nat ->
  (hd 0 e <= inject_Z v)%Q -> (inject_Z v <= last e 0)%Q ->
  (0 < qsum (weighted data e))%Q.
Proof.
  intros Hin. induction e as [| lo e IH]; intros Hpos Hlen Hlo Hhi.
  - simpl in Hlen. lia.
  - destruct e as [| hi rest]; [simpl in Hlen; lia |].
    inversion Hpos as [| ? ? Hlo0 Hrest]; subst.
    inversion Hrest as [| ? ? Hhi0 _]; subst.
    pose proof (weighted_nonneg data (hi :: rest) Hrest) as Hnn.
    change (qsum (weighted data (lo :: hi :: rest)))
      with (inject_Z (Z.of_nat (length (filter
              (fun v =>
                 Qle_bool lo (inject_Z v)
                 && (if match rest with [] => true | _ :: _ => false end
                     then Qle_bool (inject_Z v) hi
                     else negb (Qle_bool hi (inject_Z v)))) data)))
            * ((1 # 2) * (hi + lo))
            + qsum (weighted data (hi :: rest)))%Q.
    simpl hd in Hlo.
    match goal with
    | |- (0 < inject_Z (Z.of_nat (length (filter ?p data))) * _ + _)%Q =>
        pose proof (count_in_bin p data v Hin) as Hcount;
        assert (Hc0 : (0 <= inject_Z (Z.of_nat (length (filter p data))))%Q)
          by (change 0%Q with (inject_Z 0); rewrite <- Zle_Qle; lia)
    end.
    assert (Hlob : Qle_bool lo (inject_Z v) = true)
      by (apply Qle_bool_iff; exact Hlo).
    destruct rest as [| h2 r2].
    + simpl last in Hhi.
      assert (Hone : (1 <= inject_Z (Z.of_nat (length (filter
                (fun v0 => Qle_bool lo (inject_Z v0)
                           && Qle_bool (inject_Z v0) hi) data))))%Q).
      { change 1%Q with (inject_Z 1). rewrite <- Zle_Qle. apply Hcount.
        rewrite Hlob. simpl. apply Qle_bool_iff. exact Hhi. }
      nra.
    + destruct (Qlt_le_dec (inject_Z v) hi) as [Hlt | Hge].
      * assert (Hone : (1 <= inject_Z (Z.of_nat (length (filter
                  (fun v0 => Qle_bool lo (inject_Z v0)
                             && negb (Qle_bool hi (inject_Z v0))) data))))%Q).
        { change 1%Q with (inject_Z 1). rewrite <- Zle_Qle. apply Hcount.
          rewrite Hlob. simpl.
          destruct (Qle_bool hi (inject_Z v)) eqn:E; [| reflexivity].
          apply Qle_bool_iff in E. lra. }
        nra.
      * assert (Hrec : (0 < qsum (weighted data (hi :: h2 :: r2)))%Q).
        { apply IH; try assumption. simpl. lia. }
        nra.
Qed.

Lemma adjacent_cons2 {A : Type} (f : Q -> Q -> A) (u v : Q) (e : list Q) :
  adjacent f (u :: v :: e) = f u v :: adjacent f (v :: e).
Proof. reflexivity. Qed.

Lemma bin_counts_cons2 (data : list Z) (lo hi : Q) (rest : list Q) :
  exists c, bin_counts data (lo :: hi :: rest) =
            c :: bin_counts data (hi :: rest).
Proof. eexists. reflexivity. Qed.

(** Dividing each weighted count by the total times the bin width and
    summing value times width gives the sum of the weighted counts over
    the total. *)
Lemma histogram_sum (data : list Z) (T : Q) (e : list Q) :
  ~ (T == 0)%Q -> Forall (fun w => ~ (w == 0)%Q) (diff e) ->
  (qsum (multiply (divide (weighted data e) (map (Qmult T) (diff e)))
                  (diff e))
   == qsum (weighted data e) / T)%Q.
Proof.
  intros HT. unfold diff. induction e as [| lo e IH]; intros Hw.
  - simpl. field. exact HT.
  - destruct e as [| hi rest].
    + simpl. field. exact HT.
    + destruct (bin_counts_cons2 data lo hi rest) as [c Hc].
      rewrite Hc, !adjacent_cons2 in *.
      inversion Hw as [| ? ? Hw0 Hw']; subst.
      specialize (IH Hw').
      unfold multiply, divide in *. simpl. simpl in IH.
      rewrite IH. field. split; assumption.
Qed.

Lemma adjacent_map_seq {A : Type} (g : Q -> Q -> A) (f : nat -> Q) (n : nat) :
  forall k,
    adjacent g (map f (seq k (S n))) =
    map (fun i => g (f i) (f (S i))) (seq k n).
Proof.
  induction n as [| n IH]; intros k.
  - reflexivity.
  - change (seq k (S (S n))) with (k :: seq (S k) (S n)).
    change (map f (k :: seq (S k) (S n)))
      with (f k :: map f (seq (S k) (S n))).
    change (seq k (S n)) with (k :: seq (S k) n).
    change (map (fun i => g (f i) (f (S i))) (k :: seq (S k) n))
      with (g (f k) (f (S k))
            :: map (fun i => g (f i) (f (S i))) (seq (S k) n)).
    rewrite <- IH.
    change (seq (S k) (S n)) with (S k :: seq (S (S k)) n).
    reflexivity.
Qed.

Lemma inject_nat_nonneg (i : nat) : (0 <= inject_Z (Z.of_nat i))%Q.
Proof. change 0%Q with (inject_Z 0). rewrite <- Zle_Qle. lia. Qed.

Lemma inject_nat_succ (i : nat) :
  (inject_Z (Z.of_nat (S i)) == inject_Z (Z.of_nat i) + 1)%Q.
Proof.
  rewrite Nat2Z.inj_succ. unfold Z.succ. rewrite inject_Z_plus. reflexivity.
Qed.

(** The bins of [linspace] over a proper interval have a width that is not
    zero. *)
Lemma linspace_diff_nonzero (a b : Q) (n : nat) :
  (a < b)%Q -> (0 < n)%nat ->
  Forall (fun w => ~ (w == 0)%Q) (diff (linspace a b (S n))).
Proof.
  intros Hab Hn. unfold diff, linspace.
  rewrite adjacent_map_seq. apply Forall_forall. intros w Hw.
  apply in_map_iff in Hw as [i [<- _]].
  replace (S n - 1)%nat with n by lia.
  rewrite inject_nat_succ.
  assert (Hpos : (0 < inject_Z (Z.of_nat n))%Q) by (apply inject_Z_pos; lia).
  assert (Hstep : (0 < (b - a) / inject_Z (Z.of_nat n))%Q).
  { apply Qlt_shift_div_l; [exact Hpos | lra]. }
  lra.
Qed.

Lemma linspace_pos (a b : Q) (n : nat) :
  (0 < a)%Q -> (a <= b)%Q -> Forall (fun u => 0 < u)%Q (linspace a b n).
Proof.
  intros Ha Hab. unfold linspace. apply Forall_forall. intros u Hu.
  apply in_map_iff in Hu as [i [<- _]].
  assert (Hstep : (0 <= (b - a) / inject_Z (Z.of_nat (n - 1)))%Q).
  { apply Qmult_le_0_compat; [lra |]. apply Qinv_le_0_compat.
    apply inject_nat_nonneg. }
  pose proof (inject_nat_nonneg i). nra.
Qed.

Lemma linspace_hd (a b : Q) (n : nat) : (hd 0 (linspace a b (S n)) == a)%Q.
Proof.
  unfold linspace. cbn [seq map hd].
  change (inject_Z (Z.of_nat 0)) with 0%Q. ring.
Qed.

Lemma linspace_last (a b : Q) (n : nat) :
  (0 < n)%nat -> (last (linspace a b (S n)) 0 == b)%Q.
Proof.
  intros Hn. unfold linspace. rewrite seq_S, map_app. cbn [map].
  rewrite last_last. replace (S n - 1)%nat with n by lia.
  cbn [Nat.add]. field.
  apply inject_Z_nonzero. lia.
Qed.

Lemma fold_min_le (l : list Z) : forall a, fold_left Z.min l a <= a.
Proof.
  induction l as [| v l IH]; simpl; intros a; [lia |].
  specialize (IH (Z.min a v)). lia.
Qed.

Lemma fold_min_lower (k : Z) (l : list Z) :
  Forall (fun v => k <= v) l -> forall a, k <= a -> k <= fold_left Z.min l a.
Proof.
  induction 1 as [| v l Hv _ IH]; simpl; intros a Ha; [exact Ha |].
  apply IH. lia.
Qed.

Lemma fold_max_ge (l : list Z) : forall a, a <= fold_left Z.max l a.
Proof.
  induction l as [| v l IH]; simpl; intros a; [lia |].
  specialize (IH (Z.max a v)). lia.
Qed.

(** The range of the histogram of a sample of chains of length 3 or more is
    a proper interval of positive numbers that holds the first chain. *)
Lemma outer_edges_valid (v : Z) (rest : list Z) :
  Forall (fun u => 3 <= u) (v :: rest) ->
  (0 < fst (outer_edges (v :: rest)))%Q
  /\ (fst (outer_edges (v :: rest)) < snd (outer_edges (v :: rest)))%Q
  /\ (fst (outer_edges (v :: rest)) <= inject_Z v)%Q
  /\ (inject_Z v <= snd (outer_edges (v :: rest)))%Q.
Proof.
  intros Hge. inversion Hge as [| ? ? Hv Hrest]; subst.
  pose proof (fold_min_le rest v) as Hmin.
  pose proof (fold_min_lower 3 rest Hrest v Hv) as Hlow.
  pose proof (fold_max_ge rest v) as Hmax.
  unfold outer_edges, amin, amax.
  rewrite Zle_Qle in Hmin, Hlow, Hmax.
  change (inject_Z 3) with 3%Q in Hlow.
  destruct (Qeq_bool (inject_Z (fold_left Z.min rest v))
                     (inject_Z (fold_left Z.max rest v))) eqn:E;
    cbn [fst snd].
  - repeat split; lra.
  - assert (Hne : ~ (inject_Z (fold_left Z.min rest v)
                     == inject_Z (fold_left Z.max rest v))%Q).
    { intros H. apply Qeq_eq_bool in H. rewrite H in E. discriminate E. }
    repeat split; lra.
Qed.

(** The histogram estimator on a sample of chains of length 3 or more:
    it normalizes, and the sum of value times width is 1. *)
Lemma histogram_unit_area (data : list Z) (bins : nat) :
  data <> [] -> Forall (fun u => 3 <= u) data -> bins <> 0%nat ->
  exists h,
    Pipeline.calculate_weight_fraction_histogram data bins = Ret h
    /\ Pipeline.hist_warned h = false
    /\ (Pipeline.histogram_area h == 1)%Q.
Proof.
  intros Hne Hge Hbins.
  destruct data as [| v rest]; [contradiction |].
  destruct bins as [| b]; [contradiction |].
  destruct (outer_edges_valid v rest Hge) as [Hpos [Hlt [Hlo Hhi]]].
  unfold Pipeline.calculate_weight_fraction_histogram, histogram.
  destruct (outer_edges (v :: rest)) as [first lst]. cbn [fst snd] in *.
  cbn [bind fst snd]. rewrite Nat.add_1_r.
  set (e := linspace first lst (S (S b))).
  assert (Hw : Forall (fun w => ~ (w == 0)%Q) (diff e))
    by (apply linspace_diff_nonzero; [exact Hlt | lia]).
  assert (HT : (0 < sum_f (weighted (v :: rest) e))%Q).
  { rewrite sum_f_qsum. apply (weighted_pos (v :: rest) v).
    - left. reflexivity.
    - apply linspace_pos; lra.
    - unfold e, linspace. rewrite length_map, length_seq. lia.
    - unfold e. rewrite linspace_hd. exact Hlo.
    - unfold e. rewrite linspace_last by lia. exact Hhi. }
  destruct (Qle_bool (sum_f (weighted (v :: rest) e)) 0) eqn:E.
  - apply Qle_bool_iff in E. lra.
  - eexists. split; [reflexivity |]. split; [reflexivity |].
    unfold Pipeline.histogram_area.
    cbn [Pipeline.weight_fraction_values Pipeline.bin_edges].
    rewrite sum_f_qsum, histogram_sum by (assumption || lra).
    rewrite <- sum_f_qsum. field. lra.
Qed.

End DensityFacts.

(** * The claims *)

Import PyStr PyStrFacts LoaderFacts Np NpFacts MomentFacts FilterFacts
  DensityFacts.




(** In binary64 the sample [1, 2, 3] gives Mn = 2, Mw = 14/6 and
    PDI = 7/6, each rounded once. *)
Lemma binary64_example :
  Binary64.compute_moments [1; 2; 3] =
  Some (2, Binary64.of_int 14 / Binary64.of_int 6,
        Binary64.of_int 7 / Binary64.of_int 6)%float.
Proof. vm_compute. reflexivity. Qed.

(** In binary64 the order of Mn and Mw can be lost to rounding once a
    squared length is above 2^53: one chain of length 100000001 gives
    Mw < Mn and PDI < 1, and the two chains 100000000 and 100000001 give
    PDI = 1. *)
Lemma binary64_rounding :
  (exists Mn Mw PDI,
      Binary64.compute_moments [100000001] = Some (Mn, Mw, PDI)
      /\ PrimFloat.ltb Mw Mn = true /\ PrimFloat.ltb PDI 1 = true)
  /\ (exists Mn Mw PDI,
         Binary64.compute_moments [100000000; 100000001]
         = Some (Mn, Mw, PDI)
         /\ PrimFloat.eqb PDI 1 = true).
Proof.
  split.
  - do 3 eexists. split; [vm_compute; reflexivity |].
    split; vm_compute; reflexivity.
  - do 3 eexists. split; [vm_compute; reflexivity |].
    vm_compute; reflexivity.
Qed.




(** C5. comparison_MWD_con_50.py squares float64 values, so its sum of
    squares is the exact one for every array; comparison_MWD_con.py squares
    and adds int64 values: for one chain of length 3037000500 its Mw is
    negative, where the other script computes 3037000500. *)
Theorem squares_widened_in_one_script_only :
  (forall l,
      (Np.sum_f (Np.square_f (Np.astype_float64 l)) == inject_Z (zsumsq l))%Q)
  /\ Forall Np.int64_range long_chain
  /\ (exists mw,
         ConScript.Mw (ConScript.compute_moments long_chain) = Some mw
         /\ (mw < 0)%Q)
  /\ (exists m,
         Pipeline.compute_moments long_chain = inr m
         /\ (Pipeline.Mw m == 3037000500)%Q).
Proof.
  split; [exact NpFacts.sum_f_squares |]. split.
  - repeat constructor; unfold Np.int64_range; lia.
  - split.
    + eexists. split; [reflexivity |]. reflexivity.
    + eexists. split; [reflexivity |]. reflexivity.
Qed.




(** C7. The filter returns the elements that are at least [min_len], in
    their order, and a removed count that is the original length minus the
    filtered length, which is the number of elements below [min_len];
    [1, 2, 3, 4, 5] filtered at 3 gives [3, 4, 5] and 2 removed; when the
    pipeline's filter (at 3) leaves nothing, no statistics are computed and
    the pipeline reports that no chain is left. *)
Theorem filter_min_length_spec
    (gaussian_kde : list Z -> option (list Z) -> py (Q -> Q))
    (l : list Z) (min_len : Z) :
  Pipeline.filter_min_length l min_len =
    (filter (fun v => min_len <=? v) l,
     Z.of_nat (length l)
     - Z.of_nat (length (filter (fun v => min_len <=? v) l)))
  /\ snd (Pipeline.filter_min_length l min_len) =
     Z.of_nat (length (filter (fun v => v <? min_len) l))
  /\ Pipeline.filter_min_length [1; 2; 3; 4; 5] 3 = ([3; 4; 5], 2)
  /\ (fst (Pipeline.filter_min_length l 3) = [] ->
      snd (Pipeline.process gaussian_kde (Some l)) = None
      /\ (l <> [] ->
          fst (Pipeline.process gaussian_kde (Some l)) =
          [Pipeline.NoChainsAfterFilter])).
Proof.
  unfold Pipeline.filter_min_length. cbn [fst snd].
  rewrite !bool_index_ge_mask. repeat split.
  - apply removed_count.
  - unfold Pipeline.process, Pipeline.filter_min_length.
    rewrite bool_index_ge_mask, H. destruct l; reflexivity.
  - intros Hne. unfold Pipeline.process, Pipeline.filter_min_length.
    rewrite bool_index_ge_mask, H. destruct l; [contradiction | reflexivity].
Qed.

(** C6. On the file "10 20 foo 30" the loader of
    comparison_MWD_con_50.py returns [10, 20, 30]; the loader of
    comparison_MWD_con.py raises ValueError.  A token made of a superscript
    digit passes [isdigit] and makes the first loader return [None]. *)
Theorem lenient_parsing_example :
  snd (Con50.read_chain_lengths (Readable ("10 20 foo 30" ++ nl)))
  = Some [10; 20; 30]
  /\ Con.read_chain_lengths (Readable ("10 20 foo 30" ++ nl))
     = Raise ValueError
  /\ Con50.read_chain_lengths (Readable ("10 " ++ sup2 ++ " 30"))
     = ([ConversionErrorMsg], None).
Proof. repeat split; reflexivity. Qed.

(** C8 (as amended). Every element of a sample returned by the loader of
    comparison_MWD_con_50.py is at least 0, and every element left by the
    pipeline's filter is at least 3. *)
Theorem loader_elements_nonneg (f : file_state) (a : list Z)
    (H : snd (Con50.read_chain_lengths f) = Some a) :
  Forall (fun v => 0 <= v) a
  /\ Forall (fun v => 3 <= v) (fst (Pipeline.filter_min_length a 3)).
Proof.
  split.
  - exact (read_chain_lengths_50_nonneg f a H).
  - unfold Pipeline.filter_min_length. cbn [fst].
    rewrite bool_index_ge_mask. apply Forall_forall. intros v Hv.
    apply filter_In in Hv as [_ Hv]. apply Z.leb_le. exact Hv.
Qed.

Lemma loader_elements_nonneg_witness :
  Forall (fun v => 0 <= v) [10; 0; 7]
  /\ Forall (fun v => 3 <= v) (fst (Pipeline.filter_min_length [10; 0; 7] 3)).
Proof.
  apply (loader_elements_nonneg (Readable "10 0 7")). reflexivity.
Defined.

(** C8, the counterexample: both loaders return a chain of length 0, and
    the loader of comparison_MWD_con.py a negative one. *)
Lemma loader_returns_zero :
  snd (Con50.read_chain_lengths (Readable "7 0")) = Some [7; 0]
  /\ Con.read_chain_lengths (Readable "7 0 -5") = Ret [7; 0; -5]
  /\ ~ Forall (fun v => 1 <= v) [7; 0].
Proof.
  repeat split. intros H.
  inversion H as [| ? ? _ H']; subst.
  inversion H' as [| ? ? H0 _]; subst. lia.
Qed.

(** C9. What the two loaders do on a missing file, on a file that cannot be
    read, on a file without a numeric token, and on a file whose only token
    is a superscript digit. *)
Theorem loader_error_cases :
  Con50.read_chain_lengths Missing = ([FileNotFoundMsg], None)
  /\ Con50.read_chain_lengths Unreadable = ([UnexpectedErrorMsg], None)
  /\ Con50.read_chain_lengths (Readable "foo bar")
     = ([NoNumericDataMsg], Some [])
  /\ Con50.read_chain_lengths (Readable sup2) = ([ConversionErrorMsg], None)
  /\ Con.read_chain_lengths Missing = Raise FileNotFoundError
  /\ Con.read_chain_lengths (Readable "foo bar") = Raise ValueError.
Proof. repeat split; reflexivity. Qed.



(** * Further properties *)

(** ** Tokens *)

Module TokenFacts.

Import PyStr PyStrFacts LoaderFacts.

Lemma cons_word_tokens (w : string) (ws : list string) :
  all_chars (fun c => negb (isspace c)) w = true ->
  Forall token ws -> Forall token (cons_word w ws).
Proof.
  intros Hw Hws. unfold cons_word. destruct (is_empty w) eqn:E.
  - exact Hws.
  - constructor; [split; assumption | exact Hws].
Qed.

Lemma split_go_tokens (s : string) :
  all_chars (fun c => negb (isspace c)) (fst (split_go s)) = true
  /\ Forall token (snd (split_go s)).
Proof.
  induction s as [| c s [IHw IHws]]; simpl.
  - split; [reflexivity | constructor].
  - destruct (split_go s) as [w ws]. simpl in IHw, IHws.
    destruct (isspace c) eqn:Hc; simpl.
    + split; [reflexivity | apply cons_word_tokens; assumption].
    + rewrite Hc, IHw. split; [reflexivity | exact IHws].
Qed.

Lemma split_tokens (s : string) : Forall token (split s).
Proof.
  unfold split. pose proof (split_go_tokens s) as [Hw Hws].
  destruct (split_go s) as [w ws]. apply cons_word_tokens; assumption.
Qed.

Lemma rstrip_no_space (s : string) :
  all_chars (fun c => negb (isspace c)) s = true -> rstrip s = s.
Proof.
  induction s as [| c s IH]; simpl; [reflexivity |].
  intros H. apply andb_true_iff in H as [Hc Hs].
  apply negb_true_iff in Hc. rewrite Hc, (IH Hs). reflexivity.
Qed.

Lemma strip_token (t : string) : token t -> strip t = t.
Proof.
  intros [_ H]. unfold strip. destruct t as [| c t]; [reflexivity |].
  assert (Hc : isspace c = false).
  { simpl in H. apply andb_true_iff in H as [Hc _].
    apply negb_true_iff. exact Hc. }
  simpl lstrip. rewrite Hc. exact (rstrip_no_space _ H).
Qed.

(** Digit characters only, and [int] accepts them: decimal digits only. *)
Lemma int_digits_of_digit_chars (s : string) :
  forall acc prev z,
    all_chars isdigit_char s = true ->
    int_digits s acc prev = Some z ->
    all_chars isdecimal_char s = true.
Proof.
  induction s as [| c s IH]; simpl; intros acc prev z Hd H.
  - reflexivity.
  - apply andb_true_iff in Hd as [Hc Hs].
    destruct (isdecimal_char c) eqn:Hdec.
    + exact (IH _ _ _ Hs H).
    + destruct (Ascii.eqb_spec c "_"%char) as [-> | _];
        [discriminate Hc | discriminate H].
Qed.

Lemma int_literal_decimal (s : string) :
  isdecimal s = true -> exists z, int_literal s = Some z.
Proof.
  intros H. destruct (int_decimal s H) as [z Hz].
  unfold int in Hz. rewrite (strip_decimal s H) in Hz.
  destruct (int_literal s) as [v |]; [exists v; reflexivity | discriminate].
Qed.

(** For a string that passes [isdigit], [int] succeeds exactly when the
    string is made of decimal digits. *)
Lemma isdigit_int_iff (s : string) :
  isdigit s = true ->
  (exists z, int_literal s = Some z) <-> isdecimal s = true.
Proof.
  intros Hd. split; [| apply int_literal_decimal].
  intros [z Hz]. unfold isdigit in Hd. unfold isdecimal.
  apply andb_true_iff in Hd as [Hne Hall]. rewrite Hne. simpl.
  destruct s as [| c s]; [discriminate Hne |].
  assert (Hc : isdigit_char c = true).
  { simpl in Hall. apply andb_true_iff in Hall as [Hc _]. exact Hc. }
  destruct (isdigit_char_not_sign c Hc) as [Hm Hp].
  unfold int_literal in Hz. rewrite Hm, Hp in Hz.
  exact (int_digits_of_digit_chars _ _ _ _ Hall Hz).
Qed.

(** The list comprehension of comparison_MWD_con_50.py raises exactly when
    some string passes [isdigit] without being made of decimal digits. *)
Lemma int_digit_tokens_raises_iff (data : list string) :
  (exists e, Con50.int_digit_tokens data = Raise e)
  <-> existsb (fun t => superscript_token (strip t)) data = true.
Proof.
  unfold superscript_token.
  induction data as [| t rest IH]; simpl.
  - split; [intros [e H]; discriminate H | discriminate].
  - destruct (isdigit (strip t)) eqn:Hd; simpl; [| exact IH].
    pose proof (isdigit_int_iff (strip t) Hd) as Hiff.
    unfold int. destruct (isdecimal (strip t)) eqn:Hdec; simpl.
    + destruct (proj2 Hiff eq_refl) as [z ->]. simpl.
      rewrite <- IH.
      destruct (Con50.int_digit_tokens rest) as [l | e]; simpl.
      * split; intros [e H]; discriminate H.
      * split; intros _; exists e; reflexivity.
    + destruct (int_literal (strip t)) as [z |] eqn:Hz.
      * assert (H : false = true) by (apply Hiff; exists z; reflexivity).
        discriminate H.
      * simpl. split; [reflexivity | intros _; exists ValueError; reflexivity].
Qed.

Lemma int_digit_tokens_raises_ValueError (data : list string) (e : exn) :
  Con50.int_digit_tokens data = Raise e -> e = ValueError.
Proof.
  induction data as [| t rest IH]; simpl; [discriminate |].
  destruct (isdigit (strip t)); [| exact IH].
  unfold int. destruct (int_literal (strip t)); simpl.
  - destruct (Con50.int_digit_tokens rest) as [l | e']; simpl;
      [discriminate |].
    intros H. injection H as <-. apply IH. reflexivity.
  - intros H. injection H as <-. reflexivity.
Qed.

(** The list comprehension returns the empty list exactly when no string
    passes [isdigit]. *)
Lemma int_digit_tokens_empty_iff (data : list string) :
  Con50.int_digit_tokens data = Ret []
  <-> forallb (fun t => negb (isdigit (strip t))) data = true.
Proof.
  induction data as [| t rest IH]; simpl.
  - split; reflexivity.
  - destruct (isdigit (strip t)); simpl; [| exact IH].
    split; [| discriminate].
    destruct (int t); simpl; [| discriminate].
    destruct (Con50.int_digit_tokens rest); simpl; discriminate.
Qed.

Lemma existsb_tokens (p q : string -> bool) (l : list string) :
  Forall (fun t => p t = q t) l -> existsb p l = existsb q l.
Proof.
  induction 1 as [| t l Ht _ IH]; simpl; [reflexivity |].
  rewrite Ht, IH. reflexivity.
Qed.

Lemma forallb_tokens (p q : string -> bool) (l : list string) :
  Forall (fun t => p t = q t) l -> forallb p l = forallb q l.
Proof.
  induction 1 as [| t l Ht _ IH]; simpl; [reflexivity |].
  rewrite Ht, IH. reflexivity.
Qed.

Lemma Forall_strip_tokens (g : string -> bool) (s : string) :
  Forall (fun t => g (strip t) = g t) (split s).
Proof.
  eapply Forall_impl; [| apply split_tokens].
  intros t Ht. rewrite (strip_token t Ht). reflexivity.
Qed.

End TokenFacts.

(** ** The loader of comparison_MWD_con_50.py, in full *)

Module LoaderCases.

Import PyStr PyStrFacts LoaderFacts TokenFacts.

Lemma int_all_length (data : list string) (a : list Z) :
  Con.int_all data = Ret a -> length a = length data.
Proof.
  revert a. induction data as [| t rest IH]; simpl; intros a H.
  - injection H as <-. reflexivity.
  - destruct (int t); simpl in H; [| discriminate].
    destruct (Con.int_all rest) as [l |]; simpl in H; [| discriminate].
    injection H as <-. simpl. rewrite (IH l eq_refl). reflexivity.
Qed.

Lemma read_50_readable (content : string) :
  Con50.read_chain_lengths (Readable content) =
  match Con50.int_digit_tokens (split content) with
  | Ret [] => ([NoNumericDataMsg], Some [])
  | Ret a => ([], Some a)
  | Raise ValueError => ([ConversionErrorMsg], None)
  | Raise _ => ([UnexpectedErrorMsg], None)
  end.
Proof.
  unfold Con50.read_chain_lengths, Con50.read_body. simpl.
  destruct (Con50.int_digit_tokens (split content)) as [a | e]; simpl.
  - destruct a; reflexivity.
  - destruct e; reflexivity.
Qed.

Lemma superscript_on_tokens (s : string) :
  existsb (fun t => superscript_token (strip t)) (split s)
  = existsb superscript_token (split s).
Proof. apply existsb_tokens, (Forall_strip_tokens superscript_token). Qed.

Lemma no_digit_on_tokens (s : string) :
  forallb (fun t => negb (isdigit (strip t))) (split s)
  = forallb (fun t => negb (isdigit t)) (split s).
Proof.
  apply forallb_tokens, (Forall_strip_tokens (fun t => negb (isdigit t))).
Qed.

End LoaderCases.

Import TokenFacts LoaderCases.

(** X1. Every token that [split] hands to the loaders has at least one
    character and no whitespace, and [strip] leaves it as it is: the test
    [length.strip().isdigit()] of the loader is a test on the token. *)
Theorem split_gives_tokens (content : string) :
  Forall (fun t => token t /\ strip t = t) (split content).
Proof.
  eapply Forall_impl; [| apply split_tokens].
  intros t Ht. split; [exact Ht | exact (strip_token t Ht)].
Qed.



(** X3. The loader of comparison_MWD_con_50.py returns the empty array,
    with the warning that no numeric data was found, exactly when the file
    can be read and none of its tokens passes [isdigit]. *)
Theorem loader_empty_iff (f : file_state) :
  (snd (Con50.read_chain_lengths f) = Some []
   <-> exists content,
        f = Readable content
        /\ forallb (fun t => negb (isdigit t)) (split content) = true)
  /\ (snd (Con50.read_chain_lengths f) = Some [] <->
      Con50.read_chain_lengths f = ([NoNumericDataMsg], Some [])).
Proof.
  split.
  - destruct f as [| | content].
    + split; [discriminate | intros [c [H _]]; discriminate H].
    + split; [discriminate | intros [c [H _]]; discriminate H].
    + rewrite read_chain_lengths_50_readable.
      pose proof (int_digit_tokens_empty_iff (split content)) as He.
      rewrite no_digit_on_tokens in He. split.
      * intros H. exists content. split; [reflexivity |]. apply He.
        destruct (Con50.int_digit_tokens (split content)) as [a | e];
          [injection H as ->; reflexivity | discriminate H].
      * intros [c [Hc Hs]]. injection Hc as <-.
        apply He in Hs. rewrite Hs. reflexivity.
  - split; [| intros ->; reflexivity].
    destruct f as [| | content]; try discriminate.
    rewrite read_50_readable.
    destruct (Con50.int_digit_tokens (split content)) as [[| v a] | e];
      simpl; try discriminate; [reflexivity |].
    destruct e; discriminate.
Qed.



(** ** Bounds on the moments *)

Module MomentBounds.

Import Np NpFacts MomentFacts DensityFacts.

Lemma fold_min_all (l : list Z) :
  forall a v, In v (a :: l) -> fold_left Z.min l a <= v.
Proof.
  induction l as [| x l IH]; simpl; intros a v Hv.
  - destruct Hv as [<- | []]. lia.
  - pose proof (fold_min_le l (Z.min a x)) as Hle.
    destruct Hv as [<- | [<- | Hv]]; try lia.
    apply IH. right. exact Hv.
Qed.

Lemma fold_max_all (l : list Z) :
  forall a v, In v (a :: l) -> v <= fold_left Z.max l a.
Proof.
  induction l as [| x l IH]; simpl; intros a v Hv.
  - destruct Hv as [<- | []]. lia.
  - pose proof (fold_max_ge l (Z.max a x)) as Hle.
    destruct Hv as [<- | [<- | Hv]]; try lia.
    apply IH. right. exact Hv.
Qed.

(** [np.min] and [np.max] bound every element. *)
Lemma amin_amax_bound (l : list Z) :
  Forall (fun v => amin l <= v <= amax l) l.
Proof.
  apply Forall_forall. intros v Hv. destruct l as [| a l]; [contradiction |].
  unfold amin, amax. split; [apply fold_min_all | apply fold_max_all];
    exact Hv.
Qed.

Lemma zsum_ge (lo : Z) (l : list Z) :
  Forall (fun v => lo <= v) l -> Z.of_nat (length l) * lo <= zsum l.
Proof.
  induction 1 as [| v l Hv _ IH]; simpl length; simpl zsum.
  - lia.
  - rewrite Nat2Z.inj_succ. lia.
Qed.

Lemma zsumsq_le (hi : Z) (l : list Z) :
  Forall (fun v => 0 <= v <= hi) l -> zsumsq l <= hi * zsum l.
Proof.
  induction 1 as [| v l Hv _ IH]; simpl.
  - lia.
  - nia.
Qed.

Lemma amin_le_amax (l : list Z) : l <> [] -> amin l <= amax l.
Proof.
  intros Hne. destruct l as [| a l]; [contradiction |].
  pose proof (amin_amax_bound (a :: l)) as H.
  inversion H as [| ? ? Ha _]; subst. lia.
Qed.

Lemma amin_lower (k : Z) (l : list Z) :
  l <> [] -> Forall (fun v => k <= v) l -> k <= amin l.
Proof.
  intros Hne H. destruct l as [| a l]; [contradiction |].
  inversion H as [| ? ? Ha Hl]; subst.
  exact (fold_min_lower k l Hl a Ha).
Qed.

(** Mn and Mw lie between the shortest and the longest chain. *)
Lemma moments_between (l : list Z) (mn mw : Q) :
  l <> [] -> Forall (fun v => 1 <= v) l ->
  (mn == inject_Z (zsum l) / inject_Z (Z.of_nat (length l)))%Q ->
  (mw == inject_Z (zsumsq l) / inject_Z (zsum l))%Q ->
  (inject_Z (amin l) <= mn)%Q /\ (mw <= inject_Z (amax l))%Q.
Proof.
  intros Hne Hpos Hmn Hmw.
  destruct (zsum_pos l Hne Hpos) as [Hn Hs].
  pose proof (amin_amax_bound l) as Hb.
  pose proof (amin_lower 1 l Hne Hpos) as Hlo.
  split.
  - rewrite Hmn. apply Qle_shift_div_l.
    + apply inject_Z_pos. exact Hn.
    + rewrite <- inject_Z_mult, <- Zle_Qle.
      rewrite Z.mul_comm. apply zsum_ge.
      eapply Forall_impl; [| exact Hb]. intros v [Hv _]. exact Hv.
  - rewrite Hmw. apply Qle_shift_div_r.
    + apply inject_Z_pos. lia.
    + rewrite <- inject_Z_mult, <- Zle_Qle. apply zsumsq_le.
      rewrite Forall_forall in *. intros v Hv.
      specialize (Hb v Hv). specialize (Hpos v Hv). lia.
Qed.

(** The int64 sum is zero only for an exact sum that is a multiple of
    2^64. *)
Lemma wrap64_zero (z : Z) : wrap64 z = 0 -> z mod 2 ^ 64 = 0.
Proof.
  unfold wrap64. intros H.
  assert (Hm : (z + 2 ^ 63) mod 2 ^ 64 = 2 ^ 63) by lia.
  pose proof (Z_div_mod_eq_full (z + 2 ^ 63) (2 ^ 64)) as Hd.
  rewrite Hm in Hd.
  assert (Hz : z = 2 ^ 64 * ((z + 2 ^ 63) / 2 ^ 64)) by lia.
  rewrite Hz, Z.mul_comm. apply Z_mod_mult.
Qed.

End MomentBounds.

Import MomentBounds.



(** X6. The moment calculator of comparison_MWD_con_50.py gives up with
    "Sum of filtered chain lengths is zero" on a non-empty sample of
    positive lengths only when their exact sum is a multiple of 2^64, hence
    at least 2^64: the int64 sum has wrapped around to zero. *)
Theorem zero_sum_only_by_wrap (l : list Z) (r : Pipeline.report)
    (Hne : l <> []) (Hpos : Forall (fun v => 1 <= v) l)
    (H : Pipeline.compute_moments l = inl r) :
  r = Pipeline.ZeroSumOfLengths
  /\ zsum l mod 2 ^ 64 = 0 /\ 2 ^ 64 <= zsum l.
Proof.
  unfold Pipeline.compute_moments in H. rewrite sum_i64_spec in H.
  destruct (Z.eqb_spec (wrap64 (zsum l)) 0) as [E | _]; [| discriminate H].
  injection H as <-. split; [reflexivity |].
  pose proof (wrap64_zero _ E) as Hm. split; [exact Hm |].
  destruct (zsum_pos l Hne Hpos) as [Hn Hs].
  pose proof (Z_div_mod_eq_full (zsum l) (2 ^ 64)) as Hd.
  rewrite Hm in Hd.
  assert (0 < zsum l / 2 ^ 64) by lia. lia.
Qed.

Lemma zero_sum_only_by_wrap_witness :
  Pipeline.compute_moments four_huge_chains = inl Pipeline.ZeroSumOfLengths
  /\ 2 ^ 64 <= zsum four_huge_chains.
Proof.
  split; [reflexivity |].
  apply (zero_sum_only_by_wrap four_huge_chains Pipeline.ZeroSumOfLengths).
  - discriminate.
  - repeat constructor; discriminate.
  - reflexivity.
Defined.

(** ** The kernel pipeline *)

Module PipelineFacts.

Import Np NpFacts MomentFacts FilterFacts DensityFacts MomentBounds.

Local Abbreviation min_val s Mn :=
  (Pipeline.max0 (inject_Z (amin s) - (1 # 10) * Mn))%Q.
Local Abbreviation max_val s Mn := (inject_Z (amax s) + (1 # 10) * Mn)%Q.
Local Abbreviation grid s Mn := (linspace (min_val s Mn) (max_val s Mn) 500).

Lemma kernel_returns
    (gaussian_kde : list Z -> option (list Z) -> py (Q -> Q))
    (s : list Z) (Mn : Q) (k : Q -> Q) :
  gaussian_kde s None = Ret k ->
  Pipeline.kernel_weight_density gaussian_kde s Mn =
  Ret (Pipeline.weight_fraction (grid s Mn) (map k (grid s Mn))).
Proof.
  intros H. unfold Pipeline.kernel_weight_density. rewrite H. reflexivity.
Qed.

Lemma kernel_inv
    (gaussian_kde : list Z -> option (list Z) -> py (Q -> Q))
    (s : list Z) (Mn : Q) (d : Pipeline.density) :
  Pipeline.kernel_weight_density gaussian_kde s Mn = Ret d ->
  exists k,
    gaussian_kde s None = Ret k
    /\ d = Pipeline.weight_fraction (grid s Mn) (map k (grid s Mn)).
Proof.
  unfold Pipeline.kernel_weight_density.
  destruct (gaussian_kde s None) as [k | e]; cbn [bind]; [| discriminate].
  intros H. exists k. split; [reflexivity |].
  apply (f_equal (fun p => match p with Ret d' => d' | Raise _ => d end))
    in H.
  symmetry. exact H.
Qed.

Lemma zip_with_length {A B C : Type} (f : A -> B -> C) (a : list A) :
  forall b, length (zip_with f a b) = Nat.min (length a) (length b).
Proof.
  induction a as [| u a IH]; intros [| v b]; simpl; try reflexivity.
  rewrite IH. reflexivity.
Qed.

Lemma weight_fraction_x_vals (x k : list Q) :
  Pipeline.x_vals (Pipeline.weight_fraction x k) = x.
Proof.
  unfold Pipeline.weight_fraction.
  destruct (Qle_bool _ Pipeline.epsilon); reflexivity.
Qed.

Lemma weight_fraction_length (x k : list Q) :
  length (Pipeline.y_vals (Pipeline.weight_fraction x k))
  = Nat.min (length x) (length k).
Proof.
  unfold Pipeline.weight_fraction.
  destruct (Qle_bool _ Pipeline.epsilon); cbn [Pipeline.y_vals];
    unfold zeros_like; rewrite length_map; unfold multiply, maximum;
    rewrite zip_with_length, length_map; reflexivity.
Qed.

Lemma linspace_length (a b : Q) (n : nat) : length (linspace a b n) = n.
Proof. unfold linspace. rewrite length_map, length_seq. reflexivity. Qed.

(** [linspace] over a proper interval is strictly increasing. *)
Lemma linspace_increasing (a b : Q) (n : nat) :
  (a < b)%Q -> (0 < n)%nat ->
  Forall (fun w => 0 < w)%Q (diff (linspace a b (S n))).
Proof.
  intros Hab Hn. unfold diff, linspace.
  rewrite adjacent_map_seq. apply Forall_forall. intros w Hw.
  apply in_map_iff in Hw as [i [<- _]].
  replace (S n - 1)%nat with n by lia.
  rewrite inject_nat_succ.
  assert (Hpos : (0 < inject_Z (Z.of_nat n))%Q) by (apply inject_Z_pos; lia).
  assert (Hstep : (0 < (b - a) / inject_Z (Z.of_nat n))%Q).
  { apply Qlt_shift_div_l; [exact Hpos | lra]. }
  lra.
Qed.

Lemma linspace_ge (a b : Q) (n : nat) :
  (a <= b)%Q -> Forall (fun u => a <= u)%Q (linspace a b n).
Proof.
  intros Hab. unfold linspace. apply Forall_forall. intros u Hu.
  apply in_map_iff in Hu as [i [<- _]].
  assert (Hstep : (0 <= (b - a) / inject_Z (Z.of_nat (n - 1)))%Q).
  { apply Qmult_le_0_compat; [lra |]. apply Qinv_le_0_compat.
    apply inject_nat_nonneg. }
  pose proof (inject_nat_nonneg i). nra.
Qed.

Lemma max0_nonneg (v : Q) : (0 <= Pipeline.max0 v)%Q.
Proof.
  unfold Pipeline.max0. destruct (Qle_bool v 0) eqn:E; [lra |].
  destruct (Qlt_le_dec 0 v) as [H | H]; [lra |].
  apply Qle_bool_iff in H. rewrite H in E. discriminate E.
Qed.

Lemma max0_le (v u : Q) : (v <= u)%Q -> (0 <= u)%Q -> (Pipeline.max0 v <= u)%Q.
Proof.
  intros Hv Hu. unfold Pipeline.max0. destruct (Qle_bool v 0); assumption.
Qed.

Lemma filter_ge (k : Z) (a : list Z) :
  Forall (fun v => k <= v) (filter (fun v => k <=? v) a).
Proof.
  apply Forall_forall. intros v Hv.
  apply filter_In in Hv as [_ Hv]. apply Z.leb_le. exact Hv.
Qed.

Lemma at_least_one (k : Z) (l : list Z) :
  1 <= k -> Forall (fun v => k <= v) l -> Forall (fun v => 1 <= v) l.
Proof.
  intros Hk H. eapply Forall_impl; [| exact H]. intros v Hv. simpl in *. lia.
Qed.

Lemma compute_moments_Mn (l : list Z) (m : Pipeline.moments) :
  Pipeline.compute_moments l = inr m -> Pipeline.Mn m = mean l.
Proof.
  unfold Pipeline.compute_moments.
  destruct (sum_i64 l =? 0); [discriminate |].
  intros H. injection H as <-. reflexivity.
Qed.

(** The mean of chains of length [k] or more is at least [k]. *)
Lemma mean_ge (k : Z) (l : list Z) :
  l <> [] -> 1 <= k -> Forall (fun v => k <= v) l ->
  (inject_Z k <= mean l)%Q.
Proof.
  intros Hne Hk Hge.
  destruct (zsum_pos l Hne (at_least_one k l Hk Hge)) as [Hn _].
  rewrite mean_spec. apply Qle_shift_div_l.
  - apply inject_Z_pos. exact Hn.
  - rewrite <- inject_Z_mult, <- Zle_Qle, Z.mul_comm.
    apply zsum_ge. exact Hge.
Qed.

(** What the pipeline did when it returns data. *)
Lemma process_inv
    (gaussian_kde : list Z -> option (list Z) -> py (Q -> Q))
    (loaded : option (list Z)) (msgs : list Pipeline.report)
    (r : Pipeline.mwd_data) :
  Pipeline.process gaussian_kde loaded = (msgs, Some r) ->
  exists a,
    loaded = Some a
    /\ Pipeline.raw_data r = filter (fun v => 3 <=? v) a
    /\ Pipeline.raw_data r <> []
    /\ Pipeline.compute_moments (Pipeline.raw_data r)
       = inr (Pipeline.stats r)
    /\ Pipeline.kernel_weight_density gaussian_kde (Pipeline.raw_data r)
         (Pipeline.Mn (Pipeline.stats r)) = Ret (Pipeline.curve r)
    /\ msgs = (if Pipeline.warned (Pipeline.curve r)
               then [Pipeline.NormalizationFailure] else []).
Proof.
  unfold Pipeline.process, Pipeline.filter_min_length. intros H.
  destruct loaded as [[| v l] |]; try discriminate H.
  rewrite bool_index_ge_mask in H.
  destruct (filter (fun u => 3 <=? u) (v :: l)) as [| u f] eqn:Hf;
    [discriminate H |].
  destruct (Pipeline.compute_moments (u :: f)) as [rep | m] eqn:Hm;
    [discriminate H |].
  destruct (Pipeline.kernel_weight_density gaussian_kde (u :: f)
              (Pipeline.Mn m)) as [d | e] eqn:Hd; [| discriminate H].
  injection H as <- <-. exists (v :: l).
  cbn [Pipeline.raw_data Pipeline.stats Pipeline.curve].
  repeat split; try assumption; try reflexivity;
    try (symmetry; assumption). discriminate.
Qed.

(** When the pipeline returns data. *)
Lemma process_succeeds
    (gaussian_kde : list Z -> option (list Z) -> py (Q -> Q))
    (a : list Z) (k : Q -> Q) :
  filter (fun v => 3 <=? v) a <> [] ->
  zsum (filter (fun v => 3 <=? v) a) < 2 ^ 63 ->
  gaussian_kde (filter (fun v => 3 <=? v) a) None = Ret k ->
  exists msgs r,
    Pipeline.process gaussian_kde (Some a) = (msgs, Some r)
    /\ Pipeline.raw_data r = filter (fun v => 3 <=? v) a.
Proof.
  intros Hne Hfit Hk.
  pose proof (filter_ge 3 a) as Hge.
  destruct (pipeline_moments_exact _ Hne
              (at_least_one 3 _ ltac:(lia) Hge) Hfit) as [m [Hm _]].
  unfold Pipeline.process, Pipeline.filter_min_length.
  destruct a as [| v l]; [contradiction Hne; reflexivity |].
  rewrite bool_index_ge_mask.
  destruct (filter (fun u => 3 <=? u) (v :: l)) as [| u f] eqn:Hf;
    [contradiction Hne; reflexivity |].
  rewrite Hm, (kernel_returns gaussian_kde (u :: f) (Pipeline.Mn m) k Hk).
  do 2 eexists. split; reflexivity.
Qed.

(** A curve computed from a non-negative estimate is non-negative. *)
Lemma weight_fraction_nonneg (x k : list Q) :
  Forall (fun v => 0 <= v)%Q k ->
  Forall (fun v => 0 <= v)%Q
         (Pipeline.y_vals (Pipeline.weight_fraction x k)).
Proof.
  intros Hk.
  assert (Hw : Forall (fun v => 0 <= v)%Q
                 (multiply (maximum x Pipeline.epsilon) k)).
  { unfold multiply, maximum. revert k Hk.
    induction x as [| u x IH]; intros k Hk; [constructor |].
    destruct k as [| v k]; [constructor |].
    inversion Hk as [| ? ? Hv Hk']; subst. simpl.
    constructor; [| exact (IH k Hk')].
    assert (He : (0 < Pipeline.epsilon)%Q) by reflexivity.
    destruct (Qle_bool Pipeline.epsilon u) eqn:E.
    - apply Qle_bool_iff in E. nra.
    - nra. }
  unfold Pipeline.weight_fraction.
  destruct (Qle_bool (trapz (multiply (maximum x Pipeline.epsilon) k) x)
                     Pipeline.epsilon) eqn:E; cbn [Pipeline.y_vals].
  - eapply Forall_impl; [| apply zeros_like_zero].
    intros v ->. lra.
  - assert (Hn : (Pipeline.epsilon
                  < trapz (multiply (maximum x Pipeline.epsilon) k) x)%Q).
    { apply Qnot_le_lt. intros H. apply Qle_bool_iff in H.
      rewrite H in E. discriminate E. }
    assert (He : (0 < Pipeline.epsilon)%Q) by reflexivity.
    apply Forall_forall. intros v Hv.
    apply in_map_iff in Hv as [w [<- Hin]].
    rewrite Forall_forall in Hw. specialize (Hw w Hin).
    apply Qle_shift_div_l; [lra | lra].
Qed.

Lemma read_some_readable (f : file_state) (a : list Z) :
  snd (Con50.read_chain_lengths f) = Some a ->
  exists content, f = Readable content.
Proof.
  destruct f as [| | content]; try discriminate.
  intros _. exists content. reflexivity.
Qed.

End PipelineFacts.

Import PipelineFacts.



(** X8. [process_and_get_mwd_data] returns data, with the chains of length 3
    or more as raw data, whenever the loader returns an array that has such
    a chain, the sum of those chains is below 2^63, and [gaussian_kde] builds
    an estimator on them. *)
Theorem process_returns_data
    (gaussian_kde : list Z -> option (list Z) -> py (Q -> Q))
    (f : file_state) (a : list Z) (k : Q -> Q)
    (Hread : snd (Con50.read_chain_lengths f) = Some a)
    (Hkeep : filter (fun v => 3 <=? v) a <> [])
    (Hfit : zsum (filter (fun v => 3 <=? v) a) < 2 ^ 63)
    (Hkde : gaussian_kde (filter (fun v => 3 <=? v) a) None = Ret k) :
  exists msgs r,
    Pipeline.process_and_get_mwd_data gaussian_kde f = (msgs, Some r)
    /\ Pipeline.raw_data r = filter (fun v => 3 <=? v) a.
Proof.
  unfold Pipeline.process_and_get_mwd_data. rewrite Hread.
  exact (process_succeeds gaussian_kde a k Hkeep Hfit Hkde).
Qed.

Lemma process_returns_data_witness :
  exists msgs r,
    Pipeline.process_and_get_mwd_data unit_kde (Readable "7 2 foo 30")
    = (msgs, Some r)
    /\ Pipeline.raw_data r = [7; 30].
Proof.
  apply (process_returns_data unit_kde (Readable "7 2 foo 30") [7; 2; 30]
           (fun _ => 1%Q)).
  - reflexivity.
  - discriminate.
  - reflexivity.
  - reflexivity.
Defined.

(** X9. The grid of every curve the pipeline returns starts at
    max(0, min - Mn/10), which is not negative and not above the shortest
    chain kept, ends above the longest chain, and is strictly increasing. *)
Theorem grid_covers_sample
    (gaussian_kde : list Z -> option (list Z) -> py (Q -> Q))
    (f : file_state) (msgs : list Pipeline.report) (r : Pipeline.mwd_data)
    (H : Pipeline.process_and_get_mwd_data gaussian_kde f = (msgs, Some r)) :
  Forall (fun u => 0 <= u)%Q (Pipeline.x_vals (Pipeline.curve r))
  /\ Forall (fun w => 0 < w)%Q (diff (Pipeline.x_vals (Pipeline.curve r)))
  /\ (hd 0 (Pipeline.x_vals (Pipeline.curve r))
      <= inject_Z (amin (Pipeline.raw_data r)))%Q
  /\ (inject_Z (amax (Pipeline.raw_data r))
      < last (Pipeline.x_vals (Pipeline.curve r)) 0)%Q.
Proof.
  unfold Pipeline.process_and_get_mwd_data in H.
  destruct (process_inv _ _ _ _ H) as [a [Ha [Hraw [Hne [Hm [Hd _]]]]]].
  destruct (kernel_inv _ _ _ _ Hd) as [k [_ Hc]].
  assert (Hge : Forall (fun v => 3 <= v) (Pipeline.raw_data r)).
  { rewrite Hraw. apply filter_ge. }
  assert (HMn : (3 <= Pipeline.Mn (Pipeline.stats r))%Q).
  { rewrite (compute_moments_Mn _ _ Hm).
    apply (mean_ge 3); [exact Hne | lia | exact Hge]. }
  pose proof (amin_le_amax _ Hne) as Hmm. rewrite Zle_Qle in Hmm.
  pose proof (amin_lower 3 _ Hne Hge) as Hlo. rewrite Zle_Qle in Hlo.
  change (inject_Z 3) with 3%Q in Hlo.
  rewrite Hc, weight_fraction_x_vals.
  set (lo := Pipeline.max0
               (inject_Z (amin (Pipeline.raw_data r))
                - (1 # 10) * Pipeline.Mn (Pipeline.stats r))%Q).
  set (hi := (inject_Z (amax (Pipeline.raw_data r))
              + (1 # 10) * Pipeline.Mn (Pipeline.stats r))%Q).
  assert (Hlo0 : (0 <= lo)%Q) by apply max0_nonneg.
  assert (Hlo1 : (lo <= inject_Z (amin (Pipeline.raw_data r)))%Q)
    by (apply max0_le; lra).
  assert (Hhi : (inject_Z (amax (Pipeline.raw_data r)) < hi)%Q)
    by (unfold hi; lra).
  split; [| split; [| split]].
  - eapply Forall_impl; [| apply (linspace_ge lo hi 500); lra].
    intros u Hu. simpl in Hu. lra.
  - apply (linspace_increasing lo hi 499); [lra | lia].
  - rewrite (linspace_hd lo hi 499). exact Hlo1.
  - rewrite (linspace_last lo hi 499) by lia. exact Hhi.
Qed.

Lemma grid_covers_sample_witness :
  exists r,
    Pipeline.raw_data r = [3; 4; 5]
    /\ Forall (fun u => 0 <= u)%Q (Pipeline.x_vals (Pipeline.curve r))
    /\ (5 < last (Pipeline.x_vals (Pipeline.curve r)) 0)%Q.
Proof.
  destruct (process_succeeds unit_kde [3; 4; 5; 1] (fun _ => 1%Q))
    as [msgs [r [Hr Hraw]]].
  - discriminate.
  - reflexivity.
  - reflexivity.
  - destruct (grid_covers_sample unit_kde (Readable "3 4 5 1") msgs r Hr)
      as [Hx [_ [_ Hlast]]].
    exists r. split; [exact Hraw |]. split; [exact Hx |].
    rewrite Hraw in Hlast. exact Hlast.
Defined.

(** X10. When the estimator that [gaussian_kde] builds is nowhere negative,
    no value of the weight fraction curve of comparison_MWD_con_50.py is
    negative. *)
Theorem curve_nonnegative
    (gaussian_kde : list Z -> option (list Z) -> py (Q -> Q))
    (sample : list Z) (Mn : Q) (d : Pipeline.density)
    (Hk : forall k x, gaussian_kde sample None = Ret k -> (0 <= k x)%Q)
    (Hd : Pipeline.kernel_weight_density gaussian_kde sample Mn = Ret d) :
  Forall (fun v => 0 <= v)%Q (Pipeline.y_vals d).
Proof.
  destruct (kernel_inv _ _ _ _ Hd) as [k [Hkde ->]].
  apply weight_fraction_nonneg.
  apply Forall_forall. intros v Hv.
  apply in_map_iff in Hv as [x [<- _]]. exact (Hk k x Hkde).
Qed.

Lemma curve_nonnegative_witness :
  exists d,
    Pipeline.kernel_weight_density unit_kde [3; 4; 5] 4 = Ret d
    /\ Forall (fun v => 0 <= v)%Q (Pipeline.y_vals d).
Proof.
  pose proof (kernel_returns unit_kde [3; 4; 5] 4 (fun _ => 1%Q) eq_refl)
    as Hd.
  eexists. split; [exact Hd |].
  apply (curve_nonnegative unit_kde [3; 4; 5] 4 _); [| exact Hd].
  intros k x Hk. injection Hk as <-. discriminate.
Defined.

(** ** The histogram, further *)

Module HistogramFacts.

Import Np NpFacts MomentFacts DensityFacts MomentBounds PipelineFacts.

Local Abbreviation center := (fun u v : Q => (1 # 2) * (v + u))%Q.

Local Abbreviation weighted data e :=
  (multiply (astype_float64 (bin_counts data e)) (adjacent center e)).

Lemma adjacent_length {A : Type} (f : Q -> Q -> A) (e : list Q) :
  length (adjacent f e) = (length e - 1)%nat.
Proof.
  induction e as [| u e IH]; [reflexivity |].
  destruct e as [| v e]; [reflexivity |].
  rewrite adjacent_cons2. simpl length in *. rewrite IH. lia.
Qed.

Lemma bin_counts_length (data : list Z) (e : list Q) :
  length (bin_counts data e) = (length e - 1)%nat.
Proof.
  induction e as [| u e IH]; [reflexivity |].
  destruct e as [| v e]; [reflexivity |].
  destruct (bin_counts_cons2 data u v e) as [c ->].
  simpl length in *. rewrite IH. lia.
Qed.

(** All the bins of [linspace] have the same width. *)
Lemma linspace_widths (a b : Q) (n : nat) :
  Forall (fun w => w == (b - a) / inject_Z (Z.of_nat n))%Q
         (diff (linspace a b (S n))).
Proof.
  unfold diff, linspace. rewrite adjacent_map_seq.
  apply Forall_forall. intros w Hw.
  apply in_map_iff in Hw as [i [<- _]].
  replace (S n - 1)%nat with n by lia.
  rewrite inject_nat_succ. ring.
Qed.

(** What the histogram function returns for a positive number of bins. *)
Lemma histogram_returns (data : list Z) (b : nat) :
  exists h,
    Pipeline.calculate_weight_fraction_histogram data (S b) = Ret h
    /\ Pipeline.bin_edges h
       = linspace (fst (outer_edges data)) (snd (outer_edges data))
                  (S (S b))
    /\ Pipeline.bin_centers h = adjacent center (Pipeline.bin_edges h)
    /\ length (Pipeline.weight_fraction_values h) = S b.
Proof.
  unfold Pipeline.calculate_weight_fraction_histogram, histogram.
  destruct (outer_edges data) as [first lst]. cbn [bind fst snd].
  rewrite Nat.add_1_r.
  set (e := linspace first lst (S (S b))).
  assert (He : length e = S (S b)) by apply linspace_length.
  destruct (Qle_bool (sum_f (weighted data e)) 0);
    eexists; (split; [reflexivity |]);
    cbn [Pipeline.bin_edges Pipeline.bin_centers
         Pipeline.weight_fraction_values];
    (split; [reflexivity |]); (split; [reflexivity |]).
  - unfold zeros_like. rewrite length_map, bin_counts_length, He. lia.
  - unfold divide, multiply, astype_float64, diff.
    rewrite !zip_with_length, !length_map, !adjacent_length,
      bin_counts_length, He.
    lia.
Qed.

(** The weight fractions of a sample of positive chains are not negative. *)
Lemma weight_fractions_nonneg (data : list Z) (T : Q) (e : list Q) :
  (0 < T)%Q -> Forall (fun u => 0 < u)%Q e ->
  Forall (fun w => 0 < w)%Q (diff e) ->
  Forall (fun v => 0 <= v)%Q
         (divide (weighted data e) (map (Qmult T) (diff e))).
Proof.
  intros HT. unfold diff. induction e as [| lo e IH]; intros Hpos Hw.
  - constructor.
  - destruct e as [| hi rest]; [constructor |].
    destruct (bin_counts_cons2 data lo hi rest) as [c Hc].
    assert (Hc0 : 0 <= c).
    { simpl in Hc. injection Hc as <-. lia. }
    rewrite Hc, !adjacent_cons2 in *.
    inversion Hw as [| ? ? Hw0 Hw']; subst.
    inversion Hpos as [| ? ? Hlo Hrest]; subst.
    inversion Hrest as [| ? ? Hhi _]; subst.
    unfold multiply, divide, astype_float64 in *. simpl.
    constructor; [| exact (IH Hrest Hw')].
    rewrite Zle_Qle in Hc0. change (inject_Z 0) with 0%Q in Hc0.
    apply Qle_shift_div_l; nra.
Qed.

(** Counting one more value adds its own bins to the counts. *)
Lemma bin_counts_cons (v : Z) (data : list Z) (e : list Q) :
  zsum (bin_counts (v :: data) e)
  = zsum (bin_counts [v] e) + zsum (bin_counts data e).
Proof.
  induction e as [| lo e IH]; [reflexivity |].
  destruct e as [| hi rest]; [reflexivity |].
  change (zsum (bin_counts (v :: data) (lo :: hi :: rest)))
    with (Z.of_nat (length (filter
            (fun u =>
               Qle_bool lo (inject_Z u)
               && (if match rest with [] => true | _ :: _ => false end
                   then Qle_bool (inject_Z u) hi
                   else negb (Qle_bool hi (inject_Z u)))) (v :: data)))
          + zsum (bin_counts (v :: data) (hi :: rest))).
  change (zsum (bin_counts [v] (lo :: hi :: rest)))
    with (Z.of_nat (length (filter
            (fun u =>
               Qle_bool lo (inject_Z u)
               && (if match rest with [] => true | _ :: _ => false end
                   then Qle_bool (inject_Z u) hi
                   else negb (Qle_bool hi (inject_Z u)))) [v]))
          + zsum (bin_counts [v] (hi :: rest))).
  change (zsum (bin_counts data (lo :: hi :: rest)))
    with (Z.of_nat (length (filter
            (fun u =>
               Qle_bool lo (inject_Z u)
               && (if match rest with [] => true | _ :: _ => false end
                   then Qle_bool (inject_Z u) hi
                   else negb (Qle_bool hi (inject_Z u)))) data))
          + zsum (bin_counts data (hi :: rest))).
  rewrite IH. cbn [filter].
  destruct (Qle_bool lo (inject_Z v)
            && (if match rest with [] => true | _ :: _ => false end
                then Qle_bool (inject_Z v) hi
                else negb (Qle_bool hi (inject_Z v)))); simpl length; lia.
Qed.

(** A value below the first edge of increasing edges is in no bin. *)
Lemma no_bin_below (v : Z) (e : list Q) :
  Forall (fun w => 0 < w)%Q (diff e) -> (inject_Z v < hd 0 e)%Q ->
  zsum (bin_counts [v] e) = 0.
Proof.
  unfold diff. induction e as [| lo e IH]; intros Hw Hv; [reflexivity |].
  destruct e as [| hi rest]; [reflexivity |].
  rewrite adjacent_cons2 in Hw.
  inversion Hw as [| ? ? Hw0 Hw']; subst. simpl hd in Hv.
  change (zsum (bin_counts [v] (lo :: hi :: rest)))
    with (Z.of_nat (length (filter
            (fun u =>
               Qle_bool lo (inject_Z u)
               && (if match rest with [] => true | _ :: _ => false end
                   then Qle_bool (inject_Z u) hi
                   else negb (Qle_bool hi (inject_Z u)))) [v]))
          + zsum (bin_counts [v] (hi :: rest))).
  rewrite (IH Hw') by (simpl; lra). cbn [filter].
  destruct (Qle_bool lo (inject_Z v)) eqn:E; [| reflexivity].
  apply Qle_bool_iff in E. lra.
Qed.

(** A value between the first and the last of increasing edges is in
    exactly one bin. *)
Lemma one_bin (v : Z) (e : list Q) :
  Forall (fun w => 0 < w)%Q (diff e) -> (2 <= length e)%nat ->
  (hd 0 e <= inject_Z v)%Q -> (inject_Z v <= last e 0)%Q ->
  zsum (bin_counts [v] e) = 1.
Proof.
  unfold diff. induction e as [| lo e IH]; intros Hw Hlen Hlo Hhi.
  - simpl in Hlen. lia.
  - destruct e as [| hi rest]; [simpl in Hlen; lia |].
    rewrite adjacent_cons2 in Hw.
    inversion Hw as [| ? ? Hw0 Hw']; subst. simpl hd in Hlo.
    change (zsum (bin_counts [v] (lo :: hi :: rest)))
      with (Z.of_nat (length (filter
              (fun u =>
                 Qle_bool lo (inject_Z u)
                 && (if match rest with [] => true | _ :: _ => false end
                     then Qle_bool (inject_Z u) hi
                     else negb (Qle_bool hi (inject_Z u)))) [v]))
            + zsum (bin_counts [v] (hi :: rest))).
    assert (Hlob : Qle_bool lo (inject_Z v) = true)
      by (apply Qle_bool_iff; exact Hlo).
    cbn [filter]. rewrite Hlob.
    destruct rest as [| h2 r2].
    + simpl last in Hhi.
      assert (Hb : Qle_bool (inject_Z v) hi = true)
        by (apply Qle_bool_iff; exact Hhi).
      rewrite Hb. reflexivity.
    + destruct (Qlt_le_dec (inject_Z v) hi) as [Hlt | Hge].
      * rewrite (no_bin_below v (hi :: h2 :: r2) Hw') by (simpl; exact Hlt).
        destruct (Qle_bool hi (inject_Z v)) eqn:E; [| reflexivity].
        apply Qle_bool_iff in E. lra.
      * rewrite (IH Hw') by (simpl; try lia; assumption).
        assert (Hb : Qle_bool hi (inject_Z v) = true)
          by (apply Qle_bool_iff; exact Hge).
        rewrite Hb. reflexivity.
Qed.

(** The counts over increasing edges that span the data add up to the
    number of values. *)
Lemma counts_add_up (data : list Z) (e : list Q) :
  Forall (fun w => 0 < w)%Q (diff e) -> (2 <= length e)%nat ->
  Forall (fun v => hd 0 e <= inject_Z v /\ inject_Z v <= last e 0)%Q data ->
  zsum (bin_counts data e) = Z.of_nat (length data).
Proof.
  intros Hw Hlen. induction 1 as [| v data [Hlo Hhi] _ IH].
  - clear Hw Hlen. induction e as [| lo e IH]; [reflexivity |].
    destruct e as [| hi rest]; [reflexivity |].
    destruct (bin_counts_cons2 [] lo hi rest) as [c Hc].
    assert (c = 0) by (simpl in Hc; injection Hc as <-; reflexivity).
    rewrite Hc. subst c. simpl zsum in *. exact IH.
  - rewrite bin_counts_cons, IH, (one_bin v e Hw Hlen Hlo Hhi).
    simpl length. lia.
Qed.

(** The range of the histogram holds every value of a non-empty sample and
    is a proper interval. *)
Lemma outer_edges_span (data : list Z) :
  data <> [] ->
  (fst (outer_edges data) < snd (outer_edges data))%Q
  /\ Forall (fun v => fst (outer_edges data) <= inject_Z v
                      /\ inject_Z v <= snd (outer_edges data))%Q data.
Proof.
  intros Hne. pose proof (amin_amax_bound data) as Hb.
  pose proof (amin_le_amax data Hne) as Hmm. rewrite Zle_Qle in Hmm.
  unfold outer_edges. destruct data as [| a l]; [contradiction |].
  destruct (Qeq_bool (inject_Z (amin (a :: l)))
                     (inject_Z (amax (a :: l)))) eqn:E; cbn [fst snd].
  - split; [lra |].
    eapply Forall_impl; [| exact Hb]. intros v [H1 H2].
    rewrite Zle_Qle in H1, H2. split; lra.
  - assert (Hneq : ~ (inject_Z (amin (a :: l))
                      == inject_Z (amax (a :: l)))%Q).
    { intros H. apply Qeq_eq_bool in H. rewrite H in E. discriminate E. }
    split; [lra |].
    eapply Forall_impl; [| exact Hb]. intros v [H1 H2].
    rewrite Zle_Qle in H1, H2. split; assumption.
Qed.

Lemma fold_min_in (l : list Z) : forall a, In (fold_left Z.min l a) (a :: l).
Proof.
  induction l as [| x l IH]; simpl; intros a; [left; reflexivity |].
  destruct (IH (Z.min a x)) as [H | H].
  - rewrite <- H.
    destruct (Z.min_spec a x) as [[_ Hm] | [_ Hm]]; rewrite Hm;
      [left | right; left]; reflexivity.
  - right. right. exact H.
Qed.

Lemma fold_max_in (l : list Z) : forall a, In (fold_left Z.max l a) (a :: l).
Proof.
  induction l as [| x l IH]; simpl; intros a; [left; reflexivity |].
  destruct (IH (Z.max a x)) as [H | H].
  - rewrite <- H.
    destruct (Z.max_spec a x) as [[_ Hm] | [_ Hm]]; rewrite Hm;
      [right; left | left]; reflexivity.
  - right. right. exact H.
Qed.

(** For a sample of equal values the range is one wide, around the value. *)
Lemma outer_edges_equal (data : list Z) :
  data <> [] -> all_equal data ->
  outer_edges data
  = (inject_Z (amin data) - (1 # 2), inject_Z (amax data) + (1 # 2))%Q
  /\ amin data = amax data.
Proof.
  intros Hne Heq. destruct data as [| a l]; [contradiction |].
  assert (H : amin (a :: l) = amax (a :: l)).
  { apply Heq; [apply fold_min_in | apply fold_max_in]. }
  split; [| exact H].
  unfold outer_edges. rewrite H.
  rewrite (proj2 (Qeq_bool_iff _ _) (Qeq_refl _)). reflexivity.
Qed.

End HistogramFacts.

Module HistogramCases.

Import Np NpFacts MomentFacts DensityFacts MomentBounds PipelineFacts
  HistogramFacts.

Local Abbreviation center := (fun u v : Q => (1 # 2) * (v + u))%Q.

Local Abbreviation weighted data e :=
  (multiply (astype_float64 (bin_counts data e)) (adjacent center e)).

Lemma centers_pos (e : list Q) :
  Forall (fun u => 0 < u)%Q e ->
  Forall (fun c => 0 < c)%Q (adjacent center e).
Proof.
  induction e as [| lo e IH]; intros Hpos; [constructor |].
  destruct e as [| hi rest]; [constructor |].
  rewrite adjacent_cons2.
  inversion Hpos as [| ? ? Hlo Hrest]; subst.
  inversion Hrest as [| ? ? Hhi _]; subst.
  constructor; [lra | exact (IH Hrest)].
Qed.

(** The histogram of a sample of chains of length 3 or more: no warning,
    positive centers, weight fractions that are not negative. *)
Lemma histogram_valid (data : list Z) (b : nat) :
  data <> [] -> Forall (fun u => 3 <= u) data ->
  exists h,
    Pipeline.calculate_weight_fraction_histogram data (S b) = Ret h
    /\ Pipeline.hist_warned h = false
    /\ Forall (fun c => 0 < c)%Q (Pipeline.bin_centers h)
    /\ Forall (fun v => 0 <= v)%Q (Pipeline.weight_fraction_values h).
Proof.
  intros Hne Hge. destruct data as [| v rest]; [contradiction |].
  destruct (outer_edges_valid v rest Hge) as [Hpos [Hlt [Hlo Hhi]]].
  unfold Pipeline.calculate_weight_fraction_histogram, histogram.
  destruct (outer_edges (v :: rest)) as [first lst]. cbn [fst snd] in *.
  cbn [bind fst snd]. rewrite Nat.add_1_r.
  set (e := linspace first lst (S (S b))).
  assert (Hw : Forall (fun w => 0 < w)%Q (diff e))
    by (apply linspace_increasing; [exact Hlt | lia]).
  assert (He : Forall (fun u => 0 < u)%Q e) by (apply linspace_pos; lra).
  assert (HT : (0 < sum_f (weighted (v :: rest) e))%Q).
  { rewrite sum_f_qsum. apply (weighted_pos (v :: rest) v).
    - left. reflexivity.
    - exact He.
    - unfold e. rewrite linspace_length. lia.
    - unfold e. rewrite linspace_hd. exact Hlo.
    - unfold e. rewrite linspace_last by lia. exact Hhi. }
  destruct (Qle_bool (sum_f (weighted (v :: rest) e)) 0) eqn:E.
  - apply Qle_bool_iff in E. lra.
  - eexists. split; [reflexivity |]. split; [reflexivity |].
    cbn [Pipeline.bin_centers Pipeline.weight_fraction_values]. split.
    + exact (centers_pos e He).
    + apply weight_fractions_nonneg; assumption.
Qed.

End HistogramCases.

Import HistogramFacts HistogramCases.

(** X11. [calculate_weight_fraction_histogram] raises ValueError for zero
    bins; for a positive number of bins it returns that many centers and
    weight fractions and one more edge, the edges run from the first to the
    last outer edge of the data, and all bins have the same width. *)
Theorem histogram_shape (data : list Z) (bins : nat) :
  Pipeline.calculate_weight_fraction_histogram data 0 = Raise ValueError
  /\ (bins <> 0%nat ->
      exists h,
        Pipeline.calculate_weight_fraction_histogram data bins = Ret h
        /\ length (Pipeline.bin_edges h) = (bins + 1)%nat
        /\ length (Pipeline.bin_centers h) = bins
        /\ length (Pipeline.weight_fraction_values h) = bins
        /\ (hd 0 (Pipeline.bin_edges h) == fst (outer_edges data))%Q
        /\ (last (Pipeline.bin_edges h) 0 == snd (outer_edges data))%Q
        /\ Forall (fun w =>
                     w == (snd (outer_edges data) - fst (outer_edges data))
                          / inject_Z (Z.of_nat bins))%Q
                  (diff (Pipeline.bin_edges h))).
Proof.
  split; [reflexivity |]. intros Hbins.
  destruct bins as [| b]; [contradiction |].
  destruct (histogram_returns data b) as [h [Hh [He [Hc Hv]]]].
  exists h. split; [exact Hh |].
  split; [rewrite He, linspace_length; lia |].
  split; [rewrite Hc, He, adjacent_length, linspace_length; lia |].
  split; [exact Hv |]. rewrite He.
  split; [apply linspace_hd |].
  split; [apply linspace_last; lia | apply linspace_widths].
Qed.

(** X12. The counts that [np.histogram] gives the histogram function for a
    non-empty sample add up to the number of chains: every chain is in
    exactly one bin. *)
Theorem histogram_counts_add_up
    (data : list Z) (bins : nat) (counts : list Z) (edges : list Q)
    (Hne : data <> [])
    (H : histogram data bins = Ret (counts, edges)) :
  zsum counts = Z.of_nat (length data) /\ length counts = bins.
Proof.
  unfold histogram in H. destruct bins as [| b]; [discriminate H |].
  destruct (outer_edges_span data Hne) as [Hlt Hspan].
  destruct (outer_edges data) as [first lst]. cbn [fst snd] in *.
  rewrite Nat.add_1_r in H.
  remember (linspace first lst (S (S b))) as e eqn:He.
  injection H as <- _. rewrite He.
  split.
  - apply counts_add_up.
    + apply linspace_increasing; [exact Hlt | lia].
    + rewrite linspace_length. lia.
    + eapply Forall_impl; [| exact Hspan]. intros v [H1 H2].
      rewrite linspace_hd, linspace_last by lia. split; assumption.
  - rewrite bin_counts_length, linspace_length. lia.
Qed.

Lemma histogram_counts_add_up_witness :
  exists counts edges,
    histogram [3; 4; 5; 5; 7] 4 = Ret (counts, edges)
    /\ zsum counts = 5.
Proof.
  eexists. eexists. split; [reflexivity |].
  eapply (histogram_counts_add_up [3; 4; 5; 5; 7] 4).
  - discriminate.
  - reflexivity.
Defined.

(** X13. For a non-empty sample of chains of length 3 or more and a
    positive number of bins the histogram function gives no warning, bin
    centers that are positive and weight fractions that are not
    negative. *)
Theorem histogram_values_nonneg (data : list Z) (bins : nat)
    (Hne : data <> []) (Hge : Forall (fun u => 3 <= u) data)
    (Hbins : bins <> 0%nat) :
  exists h,
    Pipeline.calculate_weight_fraction_histogram data bins = Ret h
    /\ Pipeline.hist_warned h = false
    /\ Forall (fun c => 0 < c)%Q (Pipeline.bin_centers h)
    /\ Forall (fun v => 0 <= v)%Q (Pipeline.weight_fraction_values h).
Proof.
  destruct bins as [| b]; [contradiction |].
  exact (histogram_valid data b Hne Hge).
Qed.

Lemma histogram_values_nonneg_witness :
  exists h,
    Pipeline.calculate_weight_fraction_histogram [3; 4; 5; 5; 7] 25 = Ret h
    /\ Forall (fun v => 0 <= v)%Q (Pipeline.weight_fraction_values h).
Proof.
  destruct (histogram_values_nonneg [3; 4; 5; 5; 7] 25)
    as [h [Hh [_ [_ Hv]]]].
  - discriminate.
  - repeat constructor; lia.
  - discriminate.
  - exists h. split; assumption.
Defined.

(** X14. For a sample of chains that all have the same length, 3 or more,
    the bins are not of zero width: the edges run from the length minus a
    half to the length plus a half, every bin is 1/bins wide, and the
    histogram normalizes to unit area without a warning. *)
Theorem histogram_of_equal_chains (data : list Z) (bins : nat)
    (Hne : data <> []) (Heq : all_equal data)
    (Hge : Forall (fun u => 3 <= u) data) (Hbins : bins <> 0%nat) :
  exists h,
    Pipeline.calculate_weight_fraction_histogram data bins = Ret h
    /\ Pipeline.hist_warned h = false
    /\ (hd 0 (Pipeline.bin_edges h) == inject_Z (amin data) - (1 # 2))%Q
    /\ (last (Pipeline.bin_edges h) 0 == inject_Z (amin data) + (1 # 2))%Q
    /\ Forall (fun w => w == 1 / inject_Z (Z.of_nat bins))%Q
              (diff (Pipeline.bin_edges h))
    /\ (Pipeline.histogram_area h == 1)%Q.
Proof.
  destruct (histogram_unit_area data bins Hne Hge Hbins)
    as [h [Hh [Hw Ha]]].
  destruct bins as [| b]; [contradiction |].
  destruct (histogram_returns data b) as [h' [Hh' [He _]]].
  rewrite Hh in Hh'. injection Hh' as <-.
  destruct (outer_edges_equal data Hne Heq) as [Ho Hmm].
  rewrite Ho, <- Hmm in He. cbn [fst snd] in He.
  exists h. split; [exact Hh |]. split; [exact Hw |]. rewrite He.
  split; [apply linspace_hd |]. split; [apply linspace_last; lia |].
  split; [| exact Ha].
  eapply Forall_impl; [| apply linspace_widths].
  intros w Hwd. cbv beta in Hwd |- *. rewrite Hwd. field.
  apply inject_Z_nonzero. lia.
Qed.

Lemma histogram_of_equal_chains_witness :
  exists h,
    Pipeline.calculate_weight_fraction_histogram [5; 5; 5] 25 = Ret h
    /\ Pipeline.hist_warned h = false
    /\ (Pipeline.histogram_area h == 1)%Q.
Proof.
  destruct (histogram_of_equal_chains [5; 5; 5] 25)
    as [h [Hh [Hw [_ [_ [_ Ha]]]]]].
  - discriminate.
  - intros u v Hu Hv. simpl in Hu, Hv.
    destruct Hu as [<- | [<- | [<- | []]]];
      destruct Hv as [<- | [<- | [<- | []]]]; reflexivity.
  - repeat constructor; lia.
  - discriminate.
  - exists h. repeat split; assumption.
Defined.

(** ** The drivers *)

Module DriverFacts.

Import Np NpFacts MomentFacts DensityFacts MomentBounds PipelineFacts
  HistogramFacts HistogramCases.

(** A loop whose turns all return, returns. *)
Lemma for_each_Forall {A B : Type} (body : A -> py B) (P : B -> Prop)
    (l : list A) :
  Forall (fun a => exists b, body a = Ret b /\ P b) l ->
  exists bs,
    for_each body l = Ret bs /\ Forall P bs /\ length bs = length l.
Proof.
  induction 1 as [| a l [b [Hb HP]] _ [bs [Hbs [HPs Hlen]]]].
  - exists []. repeat split. constructor.
  - exists (b :: bs). cbn [for_each]. rewrite Hb. cbn [bind].
    rewrite Hbs. cbn [bind]. repeat split.
    + constructor; assumption.
    + simpl. rewrite Hlen. reflexivity.
Qed.

Lemma for_each_inv {A B : Type} (body : A -> py B) (l : list A) :
  forall bs,
    for_each body l = Ret bs -> Forall2 (fun a b => body a = Ret b) l bs.
Proof.
  induction l as [| a l IH]; cbn [for_each]; intros bs H.
  - injection H as <-. constructor.
  - destruct (body a) as [b | e] eqn:Hb; cbn [bind] in H; [| discriminate H].
    destruct (for_each body l) as [bs' | e]; cbn [bind] in H;
      [| discriminate H].
    injection H as <-. constructor; [exact Hb | exact (IH bs' eq_refl)].
Qed.

(** A loop with a turn that raises, raises. *)
Lemma for_each_raise {A B : Type} (body : A -> py B) (l : list A)
    (a : A) (e : exn) :
  In a l -> body a = Raise e -> exists e', for_each body l = Raise e'.
Proof.
  intros Hin Ha. induction l as [| u l IH]; [contradiction |].
  cbn [for_each]. destruct (body u) as [b | e0] eqn:Hu; cbn [bind].
  - destruct Hin as [-> | Hin]; [rewrite Ha in Hu; discriminate Hu |].
    destruct (IH Hin) as [e' ->]. exists e'. reflexivity.
  - exists e0. reflexivity.
Qed.

Section Kde.

Variable gaussian_kde : list Z -> option (list Z) -> py (Q -> Q).
Variable fs : file_system.

Local Abbreviation process_file info :=
  (Pipeline.process_and_get_mwd_data gaussian_kde
     (fs (path_join (Plots.base_dir info) Plots.common_filename))).

(** The datasets kept are those whose file could be processed. *)
Lemma process_datasets_sound (infos : list Plots.dataset_info) :
  Forall (fun data =>
            exists info msgs,
              In info infos
              /\ process_file info = (msgs, Some (fst (fst data))))
         (snd (Plots.process_datasets gaussian_kde fs infos)).
Proof.
  induction infos as [| info rest IH]; cbn [Plots.process_datasets].
  - constructor.
  - destruct (process_file info) as [msgs pd] eqn:Hp.
    destruct (Plots.process_datasets gaussian_kde fs rest) as [msgs' pds].
    cbn [snd] in *.
    assert (IH' : Forall (fun data =>
                            exists info0 msgs0,
                              In info0 (info :: rest)
                              /\ process_file info0
                                 = (msgs0, Some (fst (fst data)))) pds).
    { eapply Forall_impl; [| exact IH].
      intros data [i [m [Hi Hm]]]. exists i, m. split; [right |]; assumption. }
    destruct pd as [d |]; [| exact IH'].
    constructor; [| exact IH'].
    exists info, msgs. split; [left; reflexivity | exact Hp].
Qed.

Lemma process_datasets_length (infos : list Plots.dataset_info) :
  (length (snd (Plots.process_datasets gaussian_kde fs infos))
   <= length infos)%nat.
Proof.
  induction infos as [| info rest IH]; cbn [Plots.process_datasets].
  - simpl. lia.
  - destruct (process_file info) as [msgs pd].
    destruct (Plots.process_datasets gaussian_kde fs rest) as [msgs' pds].
    cbn [snd] in *. destruct pd; simpl; lia.
Qed.

Lemma process_datasets_empty_iff (infos : list Plots.dataset_info) :
  snd (Plots.process_datasets gaussian_kde fs infos) = []
  <-> Forall (fun info => snd (process_file info) = None) infos.
Proof.
  induction infos as [| info rest IH]; cbn [Plots.process_datasets].
  - split; [constructor | reflexivity].
  - destruct (process_file info) as [msgs pd] eqn:Hp.
    destruct (Plots.process_datasets gaussian_kde fs rest) as [msgs' pds].
    cbn [snd] in *. destruct pd as [d |].
    + split; [discriminate |]. intros H.
      inversion H as [| ? ? Hd _]; subst. rewrite Hp in Hd.
      discriminate Hd.
    + split.
      * intros H. constructor; [rewrite Hp; reflexivity | apply IH; exact H].
      * intros H. inversion H as [| ? ? _ Hr]; subst. apply IH. exact Hr.
Qed.

(** What the plotting loop draws for a processed dataset. *)
Lemma draw_ok (f : file_state) (msgs : list Pipeline.report)
    (d : Pipeline.mwd_data) (st : Plots.style) (col : string) :
  Pipeline.process_and_get_mwd_data gaussian_kde f = (msgs, Some d) ->
  exists dr, Plots.draw (d, st, col) = Ret dr /\ drawing_ok dr.
Proof.
  intros H. unfold Pipeline.process_and_get_mwd_data in H.
  destruct (process_inv _ _ _ _ H) as [a [_ [Hraw [Hne [_ [Hd _]]]]]].
  destruct (kernel_inv _ _ _ _ Hd) as [k [_ Hc]].
  assert (Hge : Forall (fun v => 3 <= v) (Pipeline.raw_data d)).
  { rewrite Hraw. apply filter_ge. }
  unfold Plots.draw. destruct st.
  - destruct (histogram_unit_area (Pipeline.raw_data d) 25 Hne Hge
                ltac:(discriminate)) as [h [Hh [_ Ha]]].
    destruct (histogram_valid (Pipeline.raw_data d) 24 Hne Hge)
      as [h1 [Hh1 [_ [_ Hv]]]].
    destruct (histogram_returns (Pipeline.raw_data d) 24)
      as [h2 [Hh2 [He [Hcen Hlen]]]].
    rewrite Hh in Hh1, Hh2. injection Hh1 as <-. injection Hh2 as <-.
    rewrite Hh. cbn [bind]. eexists. split; [reflexivity |].
    cbn [drawing_ok]. repeat split.
    + rewrite Hcen, He, adjacent_length, linspace_length. reflexivity.
    + exact Hlen.
    + unfold diff. rewrite He, adjacent_length, linspace_length.
      reflexivity.
    + exact Hv.
    + exact Ha.
  - eexists. split; [reflexivity |]. cbn [drawing_ok]. split.
    + rewrite Hc, weight_fraction_x_vals. apply linspace_length.
    + rewrite Hc, weight_fraction_length, length_map, linspace_length.
      reflexivity.
Qed.

(** [create_plot_for_folder] in full. *)
Lemma create_plot_spec (folder_name : string) :
  exists o,
    Plots.create_plot_for_folder gaussian_kde fs folder_name = Ret o
    /\ Forall drawing_ok (Plots.drawn o)
    /\ length (Plots.drawn o)
       = length (snd (Plots.process_datasets gaussian_kde fs
                        (Plots.datasets_info folder_name)))
    /\ Plots.result o = negb (Nat.eqb (length (Plots.drawn o)) 0)
    /\ Plots.saved o
       = (if Plots.result o
          then Some ("Combined_Conv50_MWD_WeightFraction-"
                     ++ folder_name ++ ".png")%string
          else None).
Proof.
  unfold Plots.create_plot_for_folder.
  pose proof (process_datasets_sound (Plots.datasets_info folder_name))
    as Hs.
  destruct (Plots.process_datasets gaussian_kde fs
              (Plots.datasets_info folder_name)) as [msgs pds].
  cbn [snd] in *.
  destruct (for_each_Forall (Plots.draw) drawing_ok pds) as [ds [Hds [Hok Hl]]].
  { eapply Forall_impl; [| exact Hs].
    intros [[d st] col] [info [m [_ Hm]]]. cbn [fst] in Hm.
    exact (draw_ok _ _ _ st col Hm). }
  rewrite Hds. cbn [bind].
  destruct ds as [| dr ds]; cbn [length Nat.ltb Nat.leb];
    eexists; (split; [reflexivity |]);
    cbn [Plots.drawn Plots.result Plots.saved];
    repeat split; try assumption; try reflexivity.
Qed.

End Kde.

(** The pipeline on a file the loader can read. *)
Lemma process_file_succeeds
    (gaussian_kde : list Z -> option (list Z) -> py (Q -> Q))
    (f : file_state) (a : list Z) (k : Q -> Q) :
  snd (Con50.read_chain_lengths f) = Some a ->
  filter (fun v => 3 <=? v) a <> [] ->
  zsum (filter (fun v => 3 <=? v) a) < 2 ^ 63 ->
  gaussian_kde (filter (fun v => 3 <=? v) a) None = Ret k ->
  snd (Pipeline.process_and_get_mwd_data gaussian_kde f) <> None.
Proof.
  intros Hread Hne Hfit Hk. unfold Pipeline.process_and_get_mwd_data.
  rewrite Hread.
  destruct (process_succeeds gaussian_kde a k Hne Hfit Hk)
    as [msgs [r [-> _]]].
  discriminate.
Qed.

Lemma filter_length_bound {A : Type} (p : A -> bool) (l : list A) :
  (length (filter p l) <= length l)%nat.
Proof.
  induction l as [| a l IH]; simpl; [lia |].
  destruct (p a); simpl; lia.
Qed.

(** [linspace] from a point to itself stays there. *)
Lemma linspace_flat (a : Q) (n : nat) :
  Forall (fun u => u == a)%Q (linspace a a n).
Proof.
  unfold linspace. apply Forall_forall. intros u Hu.
  apply in_map_iff in Hu as [i [<- _]]. unfold Qdiv. ring.
Qed.

(** The trapezoidal integral over a grid that does not move is zero. *)
Lemma trapz_flat (a : Q) (x : list Q) :
  Forall (fun u => u == a)%Q x -> forall y, (trapz y x == 0)%Q.
Proof.
  induction 1 as [| x0 x Hx0 Hx IH]; intros y.
  - destruct y; reflexivity.
  - destruct y as [| y0 [| y1 y']]; try reflexivity.
    destruct x as [| x1 x']; [reflexivity |].
    rewrite trapz_cons2, (IH (y1 :: y')).
    inversion Hx as [| ? ? Hx1 _]; subst. rewrite Hx0, Hx1.
    unfold Qdiv. ring.
Qed.

End DriverFacts.

Module ScriptFacts.

Import PyStr LoaderFacts DriverFacts.

(** One conversion point of comparison_MWD_con.py whose file is missing, or
    holds decimal tokens the estimator accepts. *)
Lemma plot_one_returns
    (gaussian_kde : list Z -> option (list Z) -> py (Q -> Q))
    (f : file_state) :
  (forall content a,
     f = Readable content -> Con.int_all (split content) = Ret a ->
     a <> [] -> exists k, gaussian_kde a (Some a) = Ret k) ->
  f = Missing
  \/ (exists content,
        f = Readable content /\ forallb isdecimal (split content) = true) ->
  exists r, ConScript.plot_one gaussian_kde f = Ret r.
Proof.
  intros Hk [-> | [content [-> Hdec]]].
  - eexists. reflexivity.
  - destruct (comprehensions_agree _ Hdec) as [a [Ha _]].
    unfold ConScript.plot_one, Con.read_chain_lengths.
    cbn [exists_ negb open_read bind]. rewrite Ha. cbn [bind].
    destruct a as [| v a]; [eexists; reflexivity |].
    destruct (Hk content (v :: a) eq_refl Ha ltac:(discriminate)) as [k Hkr].
    unfold ConScript.weight_density. rewrite Hkr. cbn [bind].
    eexists. reflexivity.
Qed.

(** One conversion point whose file holds a token [int] rejects. *)
Lemma plot_one_raises
    (gaussian_kde : list Z -> option (list Z) -> py (Q -> Q))
    (content : string) (e : exn) :
  Con.int_all (split content) = Raise e ->
  ConScript.plot_one gaussian_kde (Readable content) = Raise e.
Proof.
  intros H. unfold ConScript.plot_one, Con.read_chain_lengths.
  cbn [exists_ negb open_read bind]. rewrite H. reflexivity.
Qed.

Lemma for_each_length {A B : Type} (body : A -> py B) (l : list A)
    (bs : list B) :
  for_each body l = Ret bs -> length bs = length l.
Proof.
  intros H. apply for_each_inv in H.
  induction H; simpl; [reflexivity | rewrite IHForall2; reflexivity].
Qed.

End ScriptFacts.

Import DriverFacts ScriptFacts.





(** X18. comparison_MWD_con.py has no handler: when one of the files it
    looks at exists and holds a token that [int] rejects, the script stops
    with an exception. *)
Theorem script_stops_on_malformed_file
    (gaussian_kde : list Z -> option (list Z) -> py (Q -> Q))
    (fs : file_system) (base sub conv content : string) (e : exn)
    (Hbase : In base Script.bases) (Hsub : In sub Script.subfolders)
    (Hconv : In conv Script.conv_points)
    (Hfile : fs (Script.fname base sub conv) = Readable content)
    (Hbad : Con.int_all (PyStr.split content) = Raise e) :
  exists e', Script.run gaussian_kde fs = Raise e'.
Proof.
  assert (H1 : exists e1, Script.plot_axis gaussian_kde fs base sub
                          = Raise e1).
  { unfold Script.plot_axis.
    apply (for_each_raise _ _ conv e Hconv).
    rewrite Hfile. apply plot_one_raises. exact Hbad. }
  destruct H1 as [e1 H1].
  assert (H2 : exists e2, Script.plot_subfolder gaussian_kde fs sub
                          = Raise e2).
  { unfold Script.plot_subfolder.
    destruct (for_each_raise (fun b => Script.plot_axis gaussian_kde fs b sub)
                Script.bases base e1 Hbase H1) as [e2 ->].
    exists e2. reflexivity. }
  destruct H2 as [e2 H2].
  exact (for_each_raise _ _ sub e2 Hsub H2).
Qed.

Lemma script_stops_on_malformed_file_witness :
  exists e, Script.run unit_kde (same_file "10 foo") = Raise e.
Proof.
  apply (script_stops_on_malformed_file unit_kde (same_file "10 foo")
           "1e7" "8" "30" "10 foo" ValueError).
  - right. left. reflexivity.
  - right. right. left. reflexivity.
  - right. right. right. right. left. reflexivity.
  - reflexivity.
  - vm_compute. reflexivity.
Defined.



(** X20. comparison_MWD_con.py cannot plot a sample of identical chain
    lengths: its grid runs from the minimum to the maximum, so the area it
    divides by is zero, and either the estimator raises or the curve is not
    finite. *)
Theorem script_curve_of_equal_chains
    (gaussian_kde : list Z -> option (list Z) -> py (Q -> Q))
    (lengths : list Z)
    (Hne : lengths <> []) (Heq : all_equal lengths) :
  (exists e, ConScript.weight_density gaussian_kde lengths = Raise e)
  \/ (exists x, ConScript.weight_density gaussian_kde lengths
                = Ret (x, None)).
Proof.
  unfold ConScript.weight_density.
  destruct (gaussian_kde lengths (Some lengths)) as [k | e];
    [right | left; exists e; reflexivity].
  cbn [bind].
  rewrite (proj2 (HistogramFacts.outer_edges_equal lengths Hne Heq)).
  eexists. unfold ConScript.normalize. cbv zeta.
  assert (Hz : (trapz
                  (map k (linspace (inject_Z (amax lengths))
                                   (inject_Z (amax lengths)) 500))
                  (linspace (inject_Z (amax lengths))
                            (inject_Z (amax lengths)) 500) == 0)%Q).
  { apply (trapz_flat (inject_Z (amax lengths))). apply linspace_flat. }
  apply Qeq_bool_iff in Hz. rewrite Hz. reflexivity.
Qed.

Lemma script_curve_of_equal_chains_witness :
  exists x, ConScript.weight_density unit_kde [5; 5; 5] = Ret (x, None).
Proof.
  destruct (script_curve_of_equal_chains unit_kde [5; 5; 5])
    as [[e He] | Hx].
  - discriminate.
  - intros u v Hu Hv. simpl in Hu, Hv. lia.
  - unfold ConScript.weight_density, unit_kde in He. cbn [bind] in He.
    discriminate He.
  - exact Hx.
Defined.
